(** * Invoice classification: a shallow embedding of
      [src/invoice_classification/classifier.py]

    The development follows the Python source function by function.
    - [PyStr]: Python [str] values as sequences of Unicode code points,
      the slice / [in] / [min] operations the classifier uses, and the part of
      the Unicode character database the [re] module and [str.lower] read.
    - [Re]: the fragment of Python's [re] the classifier's patterns are written
      in (a pattern parser and a backtracking matcher with capture groups,
      [re.search] and [re.finditer]).
    - [Classifier]: [SupplierProfile], [ClassificationResult], the [SUPPLIERS]
      registry and the methods of [InvoiceClassifier].
    Python floats are IEEE binary64 numbers: they are Rocq's primitive floats. *)

From Stdlib Require Import String Ascii.
From Stdlib Require Uint63.
From Stdlib Require Import List Bool NArith ZArith Arith Lia Floats.
Import ListNotations.

Set Warnings "-inexact-float,-register-all".

(** ** Python strings *)

Module PyStr.

(** A Python [str] is a sequence of code points. *)
Definition char := N.
Definition str := list char.

Definition bytes_of_string (s : String.string) : list N :=
  map Ascii.N_of_ascii (String.list_ascii_of_string s).

(** Source literals are written as Rocq strings; the file is UTF-8, so a
    literal is decoded to the code points Python reads. *)
Fixpoint utf8_decode (bs : list N) : str :=
  match bs with
  | [] => []
  | b :: t =>
      if (b <? 128)%N then b :: utf8_decode t
      else if (b <? 224)%N then
        match t with
        | b2 :: t2 => ((b mod 32) * 64 + b2 mod 64)%N :: utf8_decode t2
        | [] => [b]
        end
      else if (b <? 240)%N then
        match t with
        | b2 :: b3 :: t3 =>
            ((b mod 16) * 4096 + (b2 mod 64) * 64 + b3 mod 64)%N :: utf8_decode t3
        | _ => [b]
        end
      else
        match t with
        | b2 :: b3 :: b4 :: t4 =>
            ((b mod 8) * 262144 + (b2 mod 64) * 4096 + (b3 mod 64) * 64 + b4 mod 64)%N
              :: utf8_decode t4
        | _ => [b]
        end
  end.

Definition py (s : String.string) : str := utf8_decode (bytes_of_string s).
Arguments py s%_string_scope.

Definition ch (a : ascii) : char := N_of_ascii a.
Arguments ch a%_char_scope.

Definition char_eqb (a b : char) : bool := (a =? b)%N.

Fixpoint str_eqb (a b : str) : bool :=
  match a, b with
  | [], [] => true
  | x :: a', y :: b' => char_eqb x y && str_eqb a' b'
  | _, _ => false
  end.

(** [s[i:j]] for [0 <= i], [0 <= j] (a slice never raises). *)
Definition slice (s : str) (i j : nat) : str := firstn (j - i) (skipn i s).

Fixpoint starts_with (p s : str) : bool :=
  match p, s with
  | [], _ => true
  | c :: p', d :: s' => char_eqb c d && starts_with p' s'
  | _ :: _, [] => false
  end.

(** [p in s] *)
Fixpoint contains (p s : str) : bool :=
  starts_with p s ||
  match s with
  | [] => false
  | _ :: s' => contains p s'
  end.

(** [a < b] on strings: lexicographic on code points. *)
Fixpoint str_ltb (a b : str) : bool :=
  match a, b with
  | [], [] => false
  | [], _ :: _ => true
  | _ :: _, [] => false
  | x :: a', y :: b' =>
      if (x <? y)%N then true
      else if (y <? x)%N then false
      else str_ltb a' b'
  end.

(** [min(l)] for a non-empty list: the builtin keeps the first item and
    replaces it by a later one only when that one is strictly smaller. *)
Definition py_min_from (first : str) (l : list str) : str :=
  fold_left (fun m x => if str_ltb x m then x else m) l first.

Definition py_min (l : list str) : option str :=
  match l with
  | [] => None
  | x :: l' => Some (py_min_from x l')
  end.

(** [sep.join(parts)] *)
Fixpoint join (sep : str) (parts : list str) : str :=
  match parts with
  | [] => []
  | [p] => p
  | p :: rest => p ++ sep ++ join sep rest
  end.

(** [[s[i:i+3] for i in range(0, len(s), 3)]] *)
Fixpoint chunks3_fuel (fuel : nat) (s : str) : list str :=
  match fuel, s with
  | _, [] => []
  | O, _ => []
  | S f, _ => firstn 3 s :: chunks3_fuel f (skipn 3 s)
  end.

Definition chunks3 (s : str) : list str := chunks3_fuel (length s) s.

(** *** The Unicode character database

    [re] (for [\d], [\s], [\b] and [IGNORECASE]), [str.lower] and [int] read
    CPython's Unicode tables.  Their Latin-1 part (code points below 256) is
    written out here; what they say of higher code points is a parameter of
    the development, so that every result holds whatever those tables are. *)

Class UnicodeDB := {
  udb_isdigit : char -> bool;        (* decimal digits, for [\d] *)
  udb_isspace : char -> bool;        (* white space, for [\s] *)
  udb_isword : char -> bool;         (* alphanumerics and [_], for [\b] *)
  udb_ieq : char -> char -> bool;    (* pattern and text characters equal up to case *)
  udb_lower : str -> str;            (* [str.lower] *)
  udb_int : str -> option Z          (* [int(s)]; [None] stands for ValueError *)
}.

Definition latin1 (c : char) : bool := (c <? 256)%N.

Definition latin1_lower (c : char) : char :=
  if ((65 <=? c) && (c <=? 90))%N then (c + 32)%N
  else if ((192 <=? c) && (c <=? 222) && negb (c =? 215))%N then (c + 32)%N
  else c.

Definition latin1_isdigit (c : char) : bool := ((48 <=? c) && (c <=? 57))%N.

Definition latin1_isspace (c : char) : bool :=
  (((9 <=? c) && (c <=? 13)) || ((28 <=? c) && (c <=? 32)) || (c =? 133) || (c =? 160))%N.

Definition latin1_isword (c : char) : bool :=
  (((48 <=? c) && (c <=? 57)) || ((65 <=? c) && (c <=? 90)) || ((97 <=? c) && (c <=? 122))
   || (c =? 95) || (c =? 170) || (c =? 178) || (c =? 179) || (c =? 181)
   || ((185 <=? c) && (c <=? 186)) || ((188 <=? c) && (c <=? 190))
   || ((192 <=? c) && (c <=? 214)) || ((216 <=? c) && (c <=? 246))
   || ((248 <=? c) && (c <=? 255)))%N.

Section Tables.
Context {db : UnicodeDB}.

Definition is_digit (c : char) : bool :=
  if latin1 c then latin1_isdigit c else udb_isdigit c.

Definition is_space (c : char) : bool :=
  if latin1 c then latin1_isspace c else udb_isspace c.

Definition is_word (c : char) : bool :=
  if latin1 c then latin1_isword c else udb_isword c.

(** Equality of a pattern character [p] and a text character [t] under
    [re.IGNORECASE]. *)
Definition char_ieq (p t : char) : bool :=
  if latin1 p && latin1 t then char_eqb (latin1_lower p) (latin1_lower t)
  else udb_ieq p t.

(** [s.lower()] *)
Definition lower (s : str) : str :=
  if forallb latin1 s then map latin1_lower s else udb_lower s.

Definition digit_value (c : char) : Z := Z.of_N c - 48.

Definition decimal_value (s : str) : Z :=
  fold_left (fun acc c => 10 * acc + digit_value c)%Z s 0%Z.

(** [int(s)]: [None] stands for ValueError.  (Since Python 3.11 a digit
    string longer than 4300 characters is refused as well; it is left to the
    parameter.) *)
Definition py_int (s : str) : option Z :=
  match s with
  | [] => udb_int s
  | _ :: _ =>
      if forallb latin1_isdigit s && (length s <=? 4300)
      then Some (decimal_value s)
      else udb_int s
  end.
End Tables.

(** A database that knows nothing beyond Latin-1, to run the model on
    Latin-1 text. *)
Definition latin1_db : UnicodeDB := {|
  udb_isdigit := fun _ => false;
  udb_isspace := fun _ => false;
  udb_isword := fun _ => false;
  udb_ieq := char_eqb;
  udb_lower := fun s => s;
  udb_int := fun _ => None
|}.

(** [f"{n:0{width}d}"] *)
Definition digit_char (d : Z) : char := Z.to_N (48 + d).

Fixpoint digits_fuel (fuel : nat) (n : Z) (acc : str) : str :=
  match fuel with
  | O => acc
  | S f =>
      let acc' := digit_char (n mod 10) :: acc in
      if (n / 10 =? 0)%Z then acc' else digits_fuel f (n / 10) acc'
  end.

Definition digits_of (n : Z) : str := digits_fuel (S (Z.to_nat n)) n [].

Definition format_0d (width : nat) (n : Z) : str :=
  if (n <? 0)%Z then
    let ds := digits_of (- n) in
    45%N :: repeat 48%N (width - 1 - length ds) ++ ds
  else
    let ds := digits_of n in
    repeat 48%N (width - length ds) ++ ds.

End PyStr.

(** ** The fragment of Python's [re] the classifier uses *)

Module Re.
Import PyStr.

(** An item of a character set [[...]]. *)
Inductive citem :=
| CChar (c : char)
| CSpace          (* [\s] *)
| CDigit          (* [\d] *)
| CWord.          (* [\w] *)

Inductive regex :=
| REmpty
| RChar (c : char)                             (* a literal character *)
| RAny                                         (* [.]: anything but a newline *)
| RSet (items : list citem)                    (* [[...]], [\s], [\d], [\w] *)
| RBoundary                                    (* [\b] *)
| RSeq (r1 r2 : regex)
| RAlt (r1 r2 : regex)
| RRep (lo : nat) (hi : option nat) (r : regex)  (* greedy [{lo,hi}]; [*], [+], [?] *)
| RGroup (i : nat) (r : regex).                (* the capturing group number [i] *)

(** *** Parsing a pattern

    Syntax outside the fragment (ranges and negation in a set, lazy
    quantifiers, anchors, back-references, a quantified sub-pattern that can
    match the empty string) is refused: [re_compile] answers [None].  Every
    pattern of the classifier is in the fragment ([patterns_compile] below). *)

Definition seq_ (r1 r2 : regex) : regex :=
  match r2 with
  | REmpty => r1
  | _ => match r1 with REmpty => r2 | _ => RSeq r1 r2 end
  end.

Fixpoint nullable (r : regex) : bool :=
  match r with
  | REmpty | RBoundary => true
  | RChar _ | RAny | RSet _ => false
  | RSeq r1 r2 => nullable r1 && nullable r2
  | RAlt r1 r2 => nullable r1 || nullable r2
  | RRep lo _ r' => (lo =? 0) || nullable r'
  | RGroup _ r' => nullable r'
  end.

Definition is_special (c : char) : bool :=
  existsb (char_eqb c) (py ".^$*+?{}[]\|()").

Definition is_ascii_alnum (c : char) : bool :=
  (((48 <=? c) && (c <=? 57)) || ((65 <=? c) && (c <=? 90)) || ((97 <=? c) && (c <=? 122)))%N.

(** The escape [\c]: a category, a word boundary or an escaped punctuation
    character. *)
Definition parse_escape (c : char) : option regex :=
  if char_eqb c (ch "s") then Some (RSet [CSpace])
  else if char_eqb c (ch "d") then Some (RSet [CDigit])
  else if char_eqb c (ch "w") then Some (RSet [CWord])
  else if char_eqb c (ch "b") then Some RBoundary
  else if is_ascii_alnum c then None
  else Some (RChar c).

Definition parse_set_escape (c : char) : option citem :=
  if char_eqb c (ch "s") then Some CSpace
  else if char_eqb c (ch "d") then Some CDigit
  else if char_eqb c (ch "w") then Some CWord
  else if is_ascii_alnum c then None
  else Some (CChar c).

(** The items of a set, after its [[]: up to the closing []]. *)
Fixpoint parse_set (first : bool) (s : str) : option (list citem * str) :=
  match s with
  | [] => None
  | c :: s' =>
      if char_eqb c (ch "]") then
        if first then None else Some ([], s')
      else if char_eqb c (ch "^") && first then None    (* negation *)
      else if char_eqb c (ch "\") then
        match s' with
        | e :: s'' =>
            match parse_set_escape e, parse_set false s'' with
            | Some it, Some (items, rest) => Some (it :: items, rest)
            | _, _ => None
            end
        | [] => None
        end
      else if char_eqb c (ch "-") && negb first && negb (starts_with [ch "]"] s') then None  (* a range *)
      else
        if starts_with [ch "-"] s' && negb (starts_with [ch "-"; ch "]"] s') then None    (* a range *)
        else
          match parse_set false s' with
          | Some (items, rest) => Some (CChar c :: items, rest)
          | None => None
          end
  end.

Fixpoint parse_nat (s : str) (acc : nat) : nat * str :=
  match s with
  | c :: s' => if latin1_isdigit c then parse_nat s' (10 * acc + N.to_nat (c - 48)%N) else (acc, s)
  | [] => (acc, s)
  end.

(** The quantifier, if any, that follows the atom [r]. *)
Definition parse_quant (r : regex) (s : str) : option (regex * str) :=
  let greedy_only (q : regex) (s' : str) :=
    if starts_with [ch "?"] s' || starts_with [ch "+"] s' || nullable r then None
    else Some (q, s') in
  match s with
  | c :: s' =>
      if char_eqb c (ch "*") then greedy_only (RRep 0 None r) s'
      else if char_eqb c (ch "+") then greedy_only (RRep 1 None r) s'
      else if char_eqb c (ch "?") then greedy_only (RRep 0 (Some 1) r) s'
      else if char_eqb c (ch "{") then
        match s' with
        | d :: _ =>
            if latin1_isdigit d then
              let '(lo, s1) := parse_nat s' 0 in
              match s1 with
              | e :: s2 =>
                  if char_eqb e (ch "}") then greedy_only (RRep lo (Some lo) r) s2
                  else if char_eqb e (ch ",") then
                    match s2 with
                    | f :: s3 =>
                        if char_eqb f (ch "}") then greedy_only (RRep lo None r) s3
                        else if latin1_isdigit f then
                          let '(hi, s4) := parse_nat s2 0 in
                          match s4 with
                          | g :: s5 =>
                              if char_eqb g (ch "}") && (lo <=? hi)
                              then greedy_only (RRep lo (Some hi) r) s5
                              else None
                          | [] => None
                          end
                        else None
                    | [] => None
                    end
                  else None
              | [] => None
              end
            else None
        | [] => None
        end
      else Some (r, s)
  | [] => Some (r, s)
  end.

Section Parser.
(** The parser of a whole alternation, for the inside of a group; the
    number is that of the next capturing group. *)
Variable parse_inner : str -> nat -> option (regex * str * nat).

Definition parse_atom (s : str) (ng : nat) : option (regex * str * nat) :=
  match s with
  | [] => None
  | c :: s' =>
      if char_eqb c (ch ".") then Some (RAny, s', ng)
      else if char_eqb c (ch "[") then
        match parse_set true s' with
        | Some (items, rest) => Some (RSet items, rest, ng)
        | None => None
        end
      else if char_eqb c (ch "\") then
        match s' with
        | e :: s'' =>
            match parse_escape e with
            | Some r => Some (r, s'', ng)
            | None => None
            end
        | [] => None
        end
      else if char_eqb c (ch "(") then
        if starts_with [ch "?"; ch ":"] s' then          (* (?: ... ) *)
          match parse_inner (skipn 2 s') ng with
          | Some (r, d :: rest, ng') =>
              if char_eqb d (ch ")") then Some (r, rest, ng') else None
          | _ => None
          end
        else if starts_with [ch "?"] s' then None
        else
          match parse_inner s' (S ng) with
          | Some (r, d :: rest, ng') =>
              if char_eqb d (ch ")") then Some (RGroup ng r, rest, ng') else None
          | _ => None
          end
      else if is_special c then None
      else Some (RChar c, s', ng)
  end.

Fixpoint parse_seq (fuel : nat) (s : str) (ng : nat) : option (regex * str * nat) :=
  match fuel with
  | O => None
  | S f =>
      match s with
      | [] => Some (REmpty, s, ng)
      | c :: _ =>
          if char_eqb c (ch ")") || char_eqb c (ch "|") then Some (REmpty, s, ng)
          else
            match parse_atom s ng with
            | Some (r, s1, ng1) =>
                match parse_quant r s1 with
                | Some (r', s2) =>
                    match parse_seq f s2 ng1 with
                    | Some (r2, s3, ng2) => Some (seq_ r' r2, s3, ng2)
                    | None => None
                    end
                | None => None
                end
            | None => None
            end
      end
  end.

Fixpoint parse_alts (fuel : nat) (s : str) (ng : nat) : option (regex * str * nat) :=
  match fuel with
  | O => None
  | S f =>
      match parse_seq (S (length s)) s ng with
      | Some (r, c :: s1, ng1) =>
          if char_eqb c (ch "|") then
            match parse_alts f s1 ng1 with
            | Some (r2, s2, ng2) => Some (RAlt r r2, s2, ng2)
            | None => None
            end
          else Some (r, c :: s1, ng1)
      | other => other
      end
  end.
End Parser.

Fixpoint parse_re (fuel : nat) (s : str) (ng : nat) : option (regex * str * nat) :=
  match fuel with
  | O => None
  | S f => parse_alts (parse_re f) (S (length s)) s ng
  end.

(** [re.compile(pattern)]: the expression and the number of its groups. *)
Definition re_compile (pattern : str) : option (regex * nat) :=
  match parse_re (S (length pattern)) pattern 1 with
  | Some (r, [], ng) => Some (r, ng - 1)
  | _ => None
  end.

(** *** Matching

    A backtracking matcher in continuation-passing style: alternatives are
    tried left to right and a repetition takes as many iterations as it can
    before it gives one back, which is the order in which [re] explores them,
    so the match found and its groups are those [re] reports. *)

(** A position in the subject: the character before it (for [\b]), its index
    and the text from it on. *)
Record cursor := { c_prev : option char; c_pos : nat; c_rest : str }.

(** The state of a match attempt: the position and the groups closed so far
    (the latest first). *)
Record mstate := { m_cur : cursor; m_caps : list (nat * str) }.

Definition advance (c : char) (rest' : str) (st : mstate) : mstate :=
  {| m_cur := {| c_prev := Some c; c_pos := S (c_pos (m_cur st)); c_rest := rest' |};
     m_caps := m_caps st |}.

Definition close_group (i : nat) (st0 st1 : mstate) : mstate :=
  {| m_cur := m_cur st1;
     m_caps := (i, firstn (c_pos (m_cur st1) - c_pos (m_cur st0)) (c_rest (m_cur st0)))
                 :: m_caps st1 |}.

Definition option_alt {A} (a b : option A) : option A :=
  match a with
  | Some x => Some x
  | None => b
  end.

Section Matcher.
Context {db : UnicodeDB}.
(** [re.IGNORECASE] *)
Variable ignorecase : bool.

Definition lit_match (p t : char) : bool :=
  if ignorecase then char_ieq p t else char_eqb p t.

Definition item_match (it : citem) (t : char) : bool :=
  match it with
  | CChar p => lit_match p t
  | CSpace => is_space t
  | CDigit => is_digit t
  | CWord => is_word t
  end.

Definition word_before (c : cursor) : bool :=
  match c_prev c with
  | Some p => is_word p
  | None => false
  end.

Definition word_after (c : cursor) : bool :=
  match c_rest c with
  | t :: _ => is_word t
  | [] => false
  end.

Definition at_boundary (c : cursor) : bool := xorb (word_before c) (word_after c).

(** One character of the subject, when it satisfies [ok]. *)
Definition step {A} (ok : char -> bool) (st : mstate) (k : mstate -> option A) : option A :=
  match c_rest (m_cur st) with
  | t :: rest' => if ok t then k (advance t rest' st) else None
  | [] => None
  end.

Section Rep.
Context {A : Type}.
(** The matcher of the repeated sub-pattern. *)
Variable body : mstate -> (mstate -> option A) -> option A.

(** The greedy repetition: one more iteration when the bound allows it,
    else (or when what follows then fails) stop here if [lo] iterations
    are done.  An iteration consumes at least one character, so [fuel]
    above the length of the remaining text is never exhausted. *)
Fixpoint rep (fuel lo : nat) (hi : option nat) (st : mstate)
    (k : mstate -> option A) : option A :=
  match fuel with
  | O => None
  | S f =>
      let more :=
        match hi with
        | Some O => None
        | _ =>
            body st (fun st' =>
              if c_pos (m_cur st') <=? c_pos (m_cur st) then None
              else rep f (pred lo) (option_map pred hi) st' k)
        end in
      option_alt more (if lo =? 0 then k st else None)
  end.
End Rep.

Fixpoint rmatch {A} (r : regex) (st : mstate) (k : mstate -> option A) : option A :=
  match r with
  | REmpty => k st
  | RChar p => step (lit_match p) st k
  | RAny => step (fun t => negb (char_eqb t 10%N)) st k
  | RSet items => step (fun t => existsb (fun it => item_match it t) items) st k
  | RBoundary => if at_boundary (m_cur st) then k st else None
  | RSeq r1 r2 => rmatch r1 st (fun st1 => rmatch r2 st1 k)
  | RAlt r1 r2 => option_alt (rmatch r1 st k) (rmatch r2 st k)
  | RRep lo hi r' =>
      rep (fun st' k' => rmatch r' st' k') (S (length (c_rest (m_cur st)))) lo hi st k
  | RGroup i r' => rmatch r' st (fun st1 => k (close_group i st st1))
  end.
End Matcher.

(** A match object: [start()], [end()], [groups()], and the position after the
    match, from which [finditer] goes on. *)
Record Match := {
  m_start : nat;
  m_end : nat;
  m_groups : list (option str);
  m_after : cursor
}.

Fixpoint last_cap (i : nat) (caps : list (nat * str)) : option str :=
  match caps with
  | [] => None
  | (j, s) :: caps' => if i =? j then Some s else last_cap i caps'
  end.

Definition groups_of (ngroups : nat) (caps : list (nat * str)) : list (option str) :=
  map (fun i => last_cap i caps) (seq 1 ngroups).

Section Search.
Context {db : UnicodeDB}.
Variable ignorecase : bool.
Variable r : regex.
Variable ngroups : nat.

Definition match_here (c : cursor) : option Match :=
  rmatch ignorecase r {| m_cur := c; m_caps := [] |}
    (fun st => Some {| m_start := c_pos c; m_end := c_pos (m_cur st);
                       m_groups := groups_of ngroups (m_caps st);
                       m_after := m_cur st |}).

(** The leftmost match at or after a position. *)
Fixpoint search_from (prev : option char) (pos : nat) (rest : str) : option Match :=
  option_alt (match_here {| c_prev := prev; c_pos := pos; c_rest := rest |})
    match rest with
    | [] => None
    | c :: rest' => search_from (Some c) (S pos) rest'
    end.

(** The successive non-overlapping matches.  After an empty match the scan
    moves one character on (no pattern of the classifier can match the
    empty string). *)
Fixpoint finditer_from (fuel : nat) (c : cursor) : list Match :=
  match fuel with
  | O => []
  | S f =>
      match search_from (c_prev c) (c_pos c) (c_rest c) with
      | None => []
      | Some m =>
          m :: (if m_end m =? m_start m then
                  match c_rest (m_after m) with
                  | [] => []
                  | d :: rest' =>
                      finditer_from f {| c_prev := Some d; c_pos := S (m_end m);
                                         c_rest := rest' |}
                  end
                else finditer_from f (m_after m))
      end
  end.
End Search.

Section API.
Context {db : UnicodeDB}.

Definition start_of (text : str) : cursor :=
  {| c_prev := None; c_pos := 0; c_rest := text |}.

(** [re.search(pattern, text)] and [re.search(pattern, text, re.IGNORECASE)] *)
Definition re_search (pattern text : str) (ignorecase : bool) : option Match :=
  match re_compile pattern with
  | Some (r, n) => search_from ignorecase r n None 0 text
  | None => None
  end.

(** [re.finditer(pattern, text)] *)
Definition re_finditer (pattern text : str) : list Match :=
  match re_compile pattern with
  | Some (r, n) => finditer_from false r n (S (length text)) (start_of text)
  | None => []
  end.

(** The truth value of [re.search(...)] *)
Definition re_found (pattern text : str) (ignorecase : bool) : bool :=
  match re_search pattern text ignorecase with
  | Some _ => true
  | None => false
  end.
End API.

End Re.

(** ** The classifier *)

Module Classifier.
Import PyStr Re.

(** *** Exceptions

    [inl e] is an exception that propagates, [inr v] a value.
    [LibraryError] stands for an exception raised inside a call of
    pytesseract or OpenCV. *)
Inductive exn := ValueError | IndexError | TypeError | AttributeError | LibraryError.

Definition M (A : Type) : Type := (exn + A)%type.

Definition ret {A} (a : A) : M A := inr a.
Definition raise {A} (e : exn) : M A := inl e.

Definition bind {A B} (m : M A) (f : A -> M B) : M B :=
  match m with
  | inl e => inl e
  | inr a => f a
  end.

Notation "x <- m ;; k" := (bind m (fun x => k))
  (at level 61, m at next level, right associativity).

(** *** Floats and truth values *)

(** [a / b] on two non-negative integers (exact below 2^53). *)
Definition float_of_nat (n : nat) : float := PrimFloat.of_uint63 (Uint63.of_Z (Z.of_nat n)).
Definition py_truediv (a b : nat) : float := (float_of_nat a / float_of_nat b)%float.

(** [min(a, b)] and [max(a, b)]: the builtins keep the first argument unless
    the second is strictly smaller (greater). *)
Definition py_min_float (a b : float) : float := if (b <? a)%float then b else a.
Definition py_max_float (a b : float) : float := if (a <? b)%float then b else a.

(** The truth value of an optional string: [None] and [''] are false. *)
Definition truthy (o : option str) : bool :=
  match o with
  | Some (_ :: _) => true
  | _ => false
  end.

(** *** Data model *)

(** [SupplierProfile].  The field [logo_template] is left out: it is [None]
    in every profile and no method reads it. *)
Record SupplierProfile := {
  name : str;
  display_name : str;
  nif : str;
  keywords : list str;
  header_region : Z * Z * Z * Z
}.

(** The values stored in [details]. *)
Inductive pyval :=
| VStr (s : str)
| VFloat (f : float)
| VStrList (l : list str)
| VDict (d : list (str * pyval)).

Definition dict := list (str * pyval).

Record ClassificationResult := {
  supplier : str;
  confidence : float;
  method : str;
  details : dict;
  invoice_date : option str;
  ocr_text : str
}.

(** [ClassificationResult(supplier=..., confidence=..., method=..., details=...)] *)
Definition mk_result (s : str) (c : float) (m : str) (d : dict) : ClassificationResult :=
  {| supplier := s; confidence := c; method := m; details := d;
     invoice_date := None; ocr_text := [] |}.

(** [result.invoice_date = date; result.ocr_text = text] *)
Definition attach (r : ClassificationResult) (date : option str) (text : str)
  : ClassificationResult :=
  {| supplier := supplier r; confidence := confidence r; method := method r;
     details := details r; invoice_date := date; ocr_text := text |}.

Definition profile (n d i : string) (kws : list str) (region : Z * Z * Z * Z)
  : SupplierProfile :=
  {| name := py n; display_name := py d; nif := py i; keywords := kws;
     header_region := region |}.

(** [InvoiceClassifier.SUPPLIERS], in the order of the dict. *)
Definition SUPPLIERS : list (str * SupplierProfile) := Eval cbv in [
    (py "teofilo", profile "teofilo" "Estabelecimentos Teófilo Fontainhas Neto" "500099871"
       [py "teofilo"; py "fontainhas"; py "messines"; py "8375-127"; py "teofilo.pt"]
       (0, 0, 400, 150));
    (py "soares", profile "soares" "Garrafeira Soares" "501496912"
       [py "soares"; py "garrafeira"; py "wine.*spirits"; py "40.*anos"; py "garrafeirasoares.pt"]
       (0, 0, 300, 150));
    (py "garcias", profile "garcias" "Garcias S.A." "501141243"
       [py "garcias"; py "wines.*spirits"; py "algoz"; py "8365-085"; py "garcias.pt"]
       (0, 0, 300, 150));
    (py "jmv", profile "jmv" "Jose Maria Vieira S.A." "503858471"
       [py "jose.*maria.*vieira"; py "rio.*tinto"; py "4439-909"]
       (0, 0, 400, 100));
    (py "justdrinks", profile "justdrinks" "Justdrinks Lda" "508976464"
       [py "justdrinks"; py "quatro.*estradas"; py "8100-287"; py "justdrinks.pt"]
       (0, 0, 300, 200));
    (py "novadis", profile "novadis" "Novadis Unipessoal Lda" "504350900"
       [py "novadis"; py "alfarrobeira"; py "vila.*franca.*xira"; py "centralcervejas"]
       (0, 0, 400, 100));
    (py "absolutlyvintage", profile "absolutlyvintage" "Absolutly Vintage Unipessoal Lda" "516001906"
       [py "absolutly.*vintage"; py "alcantarilha"; py "8365-028"; py "rogel"]
       (0, 0, 300, 200));
    (py "magniberia", profile "magniberia" "Magnibéria Ltd. (VENKO Solutions)" "515102334"
       [py "magniberia"; py "venko"; py "tavira"; py "8800-318"; py "magniberia.pt"]
       (0, 0, 300, 150));
    (py "teofilo_gd", profile "teofilo_gd" "Teófilo - Guia de Devolução" "500099871"
       [py "guia.*devolu"; py "produto.*reclamado"; py "produto.*devolvido"]
       (0, 0, 400, 150));
    (py "teofilo_nc", profile "teofilo_nc" "Teófilo - Nota de Crédito" "500099871"
       [py "nota.*cr[ée]dito"; py "c\s*caau"]
       (0, 0, 400, 150));
    (py "intermarche", profile "intermarche" "Intermarché / Sodiquarteira" "508162378"
       [py "intermarche"; py "sodiquarteira"; py "vilamoura"; py "supermercados"]
       (0, 0, 400, 150));
    (py "continente", profile "continente" "Continente Hipermercados" "502011475"
       [py "continente"; py "hipermercados"; py "sonae"]
       (0, 0, 400, 150));
    (py "moeve", profile "moeve" "Moeve (Galp Tolls)" "500223840"
       [py "moeve"; py "operacoes.*retalho"]
       (0, 0, 400, 150));
    (py "galp", profile "galp" "Galp Energia" "500697370"
       [py "galp"; py "petróleos"; py "energia"]
       (0, 0, 400, 150));
    (py "cepsa", profile "cepsa" "Cepsa / Vilacomb" "510748430"
       [py "cepsa"; py "vilacomb"; py "combustiveis"]
       (0, 0, 400, 150));
    (py "makro_gas", profile "makro_gas" "Makro Gas (Carbusol)" "505337053"
       [py "carbusol"; py "makro.*fetha"]
       (0, 0, 400, 150));
    (py "action", profile "action" "Action Store" "517247739"
       [py "action"; py "storeops.*portugal"]
       (0, 0, 400, 150));
    (py "burgerking", profile "burgerking" "Burger King" "504661264"
       [py "burger.*king"; py "whopper"]
       (0, 0, 400, 150));
    (py "mourapao", profile "mourapao" "Mourapão / Sailor Corner" "518468020"
       [py "mourapao"; py "sailor.*corner"; py "grupo.*mourapao"]
       (0, 0, 400, 150));
    (py "worten", profile "worten" "Worten" "503630330"
       [py "worten"; py "equipamentos.*lar"]
       (0, 0, 400, 150));
    (py "wells", profile "wells" "Wells Pharmacy" "508037514"
       [py "wells"; py "pharmacontinente"]
       (0, 0, 400, 150));
    (py "matchpoint", profile "matchpoint" "Pizzaria MatchPoint" "516585800"
       [py "matchpoint"; py "premier.*sports"]
       (0, 0, 400, 150));
    (py "overseas", profile "overseas" "Overseas Supermercados" "509943888"
       [py "overseas"; py "tavagueira"]
       (0, 0, 400, 150));
    (py "makro", profile "makro" "Makro Cash & Carry" "502030712"
       [py "makro"; py "cash.*carry"]
       (0, 0, 400, 150));
    (py "pingodoce", profile "pingodoce" "Pingo Doce" "500829093"
       [py "pingo.*doce"; py "distribuição.*alimentar"]
       (0, 0, 400, 150));
    (py "lidl", profile "lidl" "Lidl" "503340855"
       [py "lidl"; py "www\.lidl\.pt"]
       (0, 0, 400, 150));
    (py "inframoura", profile "inframoura" "Inframoura" "504915266"
       [py "inframoura"; py "águas.*algarve"; py "saneamento"]
       (0, 0, 400, 150));
    (py "constamarina", profile "constamarina" "Constamarina" "504147480"
       [py "constamarina"; py "drogaria.*nauticos"]
       (0, 0, 400, 150));
    (py "constantino", profile "constantino" "Drogaria Constantino" "500072205"
       [py "constantino"; py "rocha.*amador"]
       (0, 0, 400, 150));
    (py "papelnet", profile "papelnet" "Papelnet" "504064282"
       [py "papelnet"; py "papelaria"]
       (0, 0, 400, 150));
    (py "osakasushi", profile "osakasushi" "Osaka Sushi" "518794482"
       [py "osaka"; py "meridiano.*suculento"]
       (0, 0, 400, 150));
    (py "tribulum", profile "tribulum" "Tribulum Restaurant" "515892327"
       [py "tribulum"; py "all.*over.*mountain"]
       (0, 0, 400, 150));
    (py "zorba", profile "zorba" "Zorba The Greek" "518564410"
       [py "zorba"; py "meadows.*heaven"]
       (0, 0, 400, 150));
    (py "sinfonia", profile "sinfonia" "Sinfonia d'Iguarias" "518636766"
       [py "sinfonia"; py "iguarias"]
       (0, 0, 400, 150));
    (py "eurolatina", profile "eurolatina" "Eurolatina Bakery" "502781106"
       [py "eurolatina"; py "diniz.*nota.*loureiro"]
       (0, 0, 400, 150));
    (py "brisa", profile "brisa" "Brisa Service Areas" "514166096"
       [py "brisa"; py "areas.*servico"]
       (0, 0, 400, 150));
    (py "ikea", profile "ikea" "IKEA Portugal" "505416654"
       [py "ikea"; py "moveis.*decoracao"]
       (0, 0, 400, 150));
    (py "leroy", profile "leroy" "Leroy Merlin" "506848556"
       [py "leroy.*merlin"; py "bricolage"]
       (0, 0, 400, 150));
    (py "staples", profile "staples" "Staples Portugal" "503789372"
       [py "staples"; py "equipamento.*escritorio"]
       (0, 0, 400, 150));
    (py "note", profile "note" "Note Papelaria" "517309505"
       [py "note"; py "mundo.*note"; py "livraria.*papelaria"]
       (0, 0, 400, 150));
    (py "partyland", profile "partyland" "Partyland" "509199429"
       [py "partyland"; py "solucoes.*alegres"]
       (0, 0, 400, 150));
    (py "alparques", profile "alparques" "Alparques Estacionamento" "514916494"
       [py "alparques"; py "parque.*estac"]
       (0, 0, 400, 150));
    (py "pizzahut", profile "pizzahut" "Pizza Hut" "502604735"
       [py "pizza.*hut"; py "iberusa"]
       (0, 0, 400, 150));
    (py "mcdonalds", profile "mcdonalds" "McDonald's" "504416014"
       [py "mcdonald"; py "magic.*empreend"]
       (0, 0, 400, 150));
    (py "dominos", profile "dominos" "Domino's Pizza" "513146051"
       [py "domino"; py "daufood"]
       (0, 0, 400, 150));
    (py "apaisagem", profile "apaisagem" "Restaurante A Paisagem" "510577199"
       [py "paisagem"; py "wine.*glass"; py "churrasqueira"]
       (0, 0, 400, 150));
    (py "a4tabacaria", profile "a4tabacaria" "A4 Tabacarias" "502749423"
       [py "a4.*tabacaria"; py "tabacarias.*lda"]
       (0, 0, 400, 150));
    (py "anticapizzeria", profile "anticapizzeria" "Antica Pizzeria" "517973634"
       [py "antica.*pizzeria"; py "centralholding"]
       (0, 0, 400, 150));
    (py "italianrepublic", profile "italianrepublic" "Italian Republic Restaurant" "503254435"
       [py "italian.*republic"; py "estrela.*guia"]
       (0, 0, 400, 150));
    (py "reichurrasco", profile "reichurrasco" "Rei do Churrasco" "515553565"
       [py "rei.*churrasco"; py "titulo.*amistoso"]
       (0, 0, 400, 150));
    (py "solarfarelo", profile "solarfarelo" "Solar do Farelo" "504055224"
       [py "solar.*farelo"; py "dois.*dias.*hotelaria"]
       (0, 0, 400, 150));
    (py "botanico", profile "botanico" "Botanico Restaurant" "516823961"
       [py "botanico"; py "quinta.*lago"]
       (0, 0, 400, 150));
    (py "adegamonte", profile "adegamonte" "Adega do Monte Velho" ""
       [py "adega.*monte"; py "natureza.*prato"]
       (0, 0, 400, 150));
    (py "afamilia", profile "afamilia" "A Família Pizzaria" "508179047"
       [py "familia"; py "pizzaria.*artesanal.*brasileira"]
       (0, 0, 400, 150));
    (py "artisan", profile "artisan" "Artisan Restaurant" "515652946"
       [py "artisan"; py "luxury.*ingredient"; py "old.*village"]
       (0, 0, 400, 150));
    (py "bagga", profile "bagga" "Bagga" "508879990"
       [py "bagga"; py "pronto.*gostar"; py "bb.*food"]
       (0, 0, 400, 150));
    (py "maxidrive", profile "maxidrive" "Maxidrive Pizzaria" "515865672"
       [py "maxidrive"; py "galaxialaranjada"]
       (0, 0, 400, 150));
    (py "padoca", profile "padoca" "Padoca" "000000000"
       [py "padoca"; py "costa.*leitas"; py "las.*arcos"]
       (0, 0, 400, 150));
    (py "gildadasilva", profile "gildadasilva" "Gilda da Silva" "219329976"
       [py "gilda.*silva"; py "multiservicos.*solbelo"]
       (0, 0, 400, 150));
    (py "robalo", profile "robalo" "Robalo S.A." "500654573"
       [py "robalo"; py "utilidades.*dom.sticas"; py "hoteleiras"; py "robalo-sa\.com"]
       (0, 0, 400, 150));
    (py "seminoshopping", profile "seminoshopping" "Semino Shopping" "247388858"
       [py "semino.*shopping"; py "chen.*shuang"]
       (0, 0, 400, 150));
    (py "orientalshopping", profile "orientalshopping" "Oriental Shopping" "514703873"
       [py "oriental.*shopping"; py "orientalefeito"]
       (0, 0, 400, 150));
    (py "shoppingloule", profile "shoppingloule" "Shopping Loulé" "509713955"
       [py "shopping.*loule"; py "leia.*creia"]
       (0, 0, 400, 150));
    (py "bp", profile "bp" "BP Gas Station" "507161058"
       [py "\bbp\b"; py "bp.*quarteira"; py "bp.*vilamoura"]
       (0, 0, 400, 150));
    (py "kiabi", profile "kiabi" "Kiabi" "000000000"
       [py "kiabi"; py "fidelidade"]
       (0, 0, 400, 150));
    (py "brisatoll", profile "brisatoll" "Brisa Tolls (BCR)" "502790624"
       [py "brisa.*concessao"; py "bcr"; py "portagem"]
       (0, 0, 400, 150))
  ]%Z.

(** [for x in l: ... return v ...]: the value of the first iteration that
    returns, [None] when the loop runs to its end. *)
Fixpoint first_return {X B} (f : X -> option B) (l : list X) : option B :=
  match l with
  | [] => None
  | x :: l' =>
      match f x with
      | Some b => Some b
      | None => first_return f l'
      end
  end.

(** The same loop when an iteration may raise. *)
Fixpoint first_returnM {X B} (f : X -> M (option B)) (l : list X) : M (option B) :=
  match l with
  | [] => ret None
  | x :: l' =>
      r <- f x ;;
      match r with
      | Some b => ret (Some b)
      | None => first_returnM f l'
      end
  end.

(** A loop that appends to a list. *)
Fixpoint collectM {X B} (f : X -> M (list B)) (l : list X) : M (list B) :=
  match l with
  | [] => ret []
  | x :: l' =>
      a <- f x ;;
      b <- collectM f l' ;;
      ret (a ++ b)
  end.

(** [d.get(k)] on a dict written as its list of items. *)
Fixpoint dict_get {V} (d : list (str * V)) (k : str) : option V :=
  match d with
  | [] => None
  | (k', v) :: d' => if str_eqb k k' then Some v else dict_get d' k
  end.

Section Methods.
Context {db : UnicodeDB}.

(** *** [classify_by_nif] *)

Definition SPECIAL_CASES : list (str * list (str * list str)) :=
  [ (py "500099871",
      [ (py "teofilo_gd", [py "guia.*devolu"; py "produto.*reclamado"; py "produto.*devolvido"]);
        (py "teofilo_nc", [py "nota.*cr[ée]dito"; py "c\s*caau"]);
        (py "teofilo", []) ]) ].

(** The four surface forms of a tax ID: plain, in groups of three, and with
    the [pt] prefix, without and with a space. *)
Definition nif_patterns (n : str) : list str :=
  [ n; join (py " ") (chunks3 n); py "pt" ++ n; py "pt " ++ n ].

(** The body of [for special_name, keywords in SPECIAL_CASES[profile.nif]]. *)
Definition special_case (n text : str) (c : str * list str) : option ClassificationResult :=
  let '(special_name, kws) := c in
  match kws with
  | _ :: _ =>
      if existsb (fun kw => re_found kw text true) kws
      then Some (mk_result special_name 0.95%float (py "nif")
                   [(py "matched_nif", VStr n); (py "special_type", VStr special_name)])
      else None
  | [] =>
      Some (mk_result special_name 0.95%float (py "nif") [(py "matched_nif", VStr n)])
  end.

(** The body of [for pattern in nif_patterns]. *)
Definition nif_pattern (nm : str) (p : SupplierProfile) (text pattern : str)
  : option ClassificationResult :=
  if contains (lower pattern) text then
    match dict_get SPECIAL_CASES (nif p) with
    | Some cases => first_return (special_case (nif p) text) cases
    | None => Some (mk_result nm 0.95%float (py "nif") [(py "matched_nif", VStr (nif p))])
    end
  else None.

(** The body of [for name, profile in self.SUPPLIERS.items()]. *)
Definition nif_supplier (text : str) (e : str * SupplierProfile)
  : option ClassificationResult :=
  let '(nm, p) := e in
  if existsb (str_eqb nm) [py "teofilo_gd"; py "teofilo_nc"] then None
  else if match nif p with [] => true | _ => false end || (length (nif p) <? 9) then None
  else first_return (nif_pattern nm p text) (nif_patterns (nif p)).

Definition classify_by_nif (text : str) : option ClassificationResult :=
  first_return (nif_supplier text) SUPPLIERS.

(** *** [classify_by_keywords] *)

(** [best_match], [best_score], [best_matches] *)
Definition best := (option str * float * list str)%type.

Definition matched_keywords (text : str) (p : SupplierProfile) : list str :=
  filter (fun kw => re_found kw text true) (keywords p).

(** The body of the loop over the registry. *)
Definition keywords_step (text : str) (b : best) (e : str * SupplierProfile) : best :=
  let '(nm, p) := e in
  let '(best_match, best_score, best_matches) := b in
  let matches := matched_keywords text p in
  match matches with
  | [] => b
  | _ :: _ =>
      let score := py_truediv (length matches) (length (keywords p)) in
      if (best_score <? score)%float then (Some nm, score, matches) else b
  end.

Definition keywords_best (text : str) : best :=
  fold_left (keywords_step text) SUPPLIERS (None, 0%float, []).

Definition classify_by_keywords (text : str) : option ClassificationResult :=
  let '(best_match, best_score, best_matches) := keywords_best text in
  if truthy best_match && (0.3 <=? best_score)%float then
    match best_match with
    | Some nm =>
        Some (mk_result nm (py_min_float 0.9 (0.5 + best_score * 0.4))%float (py "keywords")
                [(py "matched_keywords", VStrList best_matches);
                 (py "score", VFloat best_score)])
    | None => None
    end
  else None.

(** *** [_normalize_date] *)

Definition pt_month_map : list (str * Z) :=
  [ (py "jan", 1); (py "fev", 2); (py "mar", 3); (py "abr", 4); (py "mai", 5);
    (py "jun", 6); (py "jul", 7); (py "ago", 8); (py "set", 9); (py "out", 10);
    (py "nov", 11); (py "dez", 12) ]%Z.

Definition days_in_month : list Z := [0; 31; 29; 31; 30; 31; 30; 31; 31; 30; 31; 30; 31]%Z.

(** [groups[i]] *)
Definition getitem {V} (l : list V) (i : nat) : M V :=
  match nth_error l i with
  | Some v => ret v
  | None => raise IndexError
  end.

(** [int(g)] on a group: [int(None)] is a TypeError. *)
Definition int_ (g : option str) : M Z :=
  match g with
  | None => raise TypeError
  | Some s =>
      match py_int s with
      | Some z => ret z
      | None => raise ValueError
      end
  end.

(** [g.lower()] on a group *)
Definition lower_ (g : option str) : M str :=
  match g with
  | None => raise AttributeError
  | Some s => ret (lower s)
  end.

(** The part after the parsing of the groups: the validity gate and the
    formatting. *)
Definition validate (year month day : Z) : M (option str) :=
  if negb ((2020 <=? year) && (year <=? 2030) && (1 <=? month) && (month <=? 12)
           && (1 <=? day) && (day <=? 31))%Z
  then ret None
  else
    dim <- getitem days_in_month (Z.to_nat month) ;;
    if (dim <? day)%Z then ret None
    else ret (Some (format_0d 4 year ++ format_0d 2 month ++ format_0d 2 day)).

(** The body of the [try]. *)
Definition normalize_body (groups : list (option str)) (date_format : str)
  : M (option str) :=
  if str_eqb date_format (py "pt_month") then
    g0 <- getitem groups 0 ;; day <- int_ g0 ;;
    g1 <- getitem groups 1 ;; month_abbr <- lower_ g1 ;;
    g2 <- getitem groups 2 ;; year <- int_ g2 ;;
    match dict_get pt_month_map month_abbr with
    | None => ret None
    | Some month =>
        if (month =? 0)%Z then ret None
        else validate (if (year <? 100)%Z then 2000 + year else year)%Z month day
    end
  else if str_eqb date_format (py "ymd") then
    g0 <- getitem groups 0 ;; year <- int_ g0 ;;
    g1 <- getitem groups 1 ;; month <- int_ g1 ;;
    g2 <- getitem groups 2 ;; day <- int_ g2 ;;
    validate year month day
  else if str_eqb date_format (py "dmy") then
    g0 <- getitem groups 0 ;; day <- int_ g0 ;;
    g1 <- getitem groups 1 ;; month <- int_ g1 ;;
    g2 <- getitem groups 2 ;; year <- int_ g2 ;;
    validate year month day
  else if str_eqb date_format (py "ambiguous") then
    g0 <- getitem groups 0 ;; first <- int_ g0 ;;
    g1 <- getitem groups 1 ;; second <- int_ g1 ;;
    g2 <- getitem groups 2 ;; year <- int_ g2 ;;
    if ((12 <? first) && (second <=? 12))%Z then validate year second first
    else if ((12 <? second) && (first <=? 12))%Z then validate year first second
    else validate year second first
  else ret None.

(** [except (ValueError, IndexError): return None] *)
Definition _normalize_date (m : Match) (date_format : str) : M (option str) :=
  match normalize_body (m_groups m) date_format with
  | inl ValueError | inl IndexError => ret None
  | other => other
  end.
End Methods.

Section DateExtraction.
Context {db : UnicodeDB}.

(** *** [extract_invoice_date] *)

Definition pt_months : string := "(jan|fev|mar|abr|mai|jun|jul|ago|set|out|nov|dez)".

Definition date_patterns : list (str * str) :=
  [ (py "(\d{1,2})\s*[-–]\s*" ++ py pt_months ++ py "\s*[-–]?\s*(\d{2,4})", py "pt_month");
    (py "(\d{4})-(\d{1,2})-(\d{1,2})", py "ymd");
    (py "(\d{4})/(\d{1,2})/(\d{1,2})", py "ymd");
    (py "(\d{1,2})/(\d{1,2})/(\d{4})", py "ambiguous");
    (py "(\d{1,2})-(\d{1,2})-(\d{4})", py "dmy");
    (py "(\d{1,2})\.(\d{1,2})\.(\d{4})", py "dmy") ].

Definition priority_keywords : list str :=
  [ py "data\s*(?:de\s*)?emiss[ãa]o\s*[:\s]*";
    py "data\s*(?:do\s*)?documento\s*[:\s]*";
    py "data\s*(?:da\s*)?fact?ura\s*[:\s]*";
    py "emitido\s*(?:em|a)?\s*[:\s]*" ].

Definition avoid_keywords : list str :=
  [ py "vencimento"; py "pagamento"; py "prazo" ].

(** The inner loop of the first pass: the first grammar whose leftmost
    match in the search area normalizes. *)
Definition date_in_area (search_area : str) (pf : str * str) : M (option str) :=
  let '(pattern, date_format) := pf in
  match re_search pattern search_area false with
  | Some m =>
      date <- _normalize_date m date_format ;;
      if truthy date then ret date else ret None
  | None => ret None
  end.

(** The body of [for keyword in priority_keywords]. *)
Definition priority_keyword (text_lower keyword : str) : M (option str) :=
  match re_search keyword text_lower false with
  | Some keyword_match =>
      let search_area :=
        slice text_lower (m_end keyword_match) (m_end keyword_match + 30) in
      first_returnM (date_in_area search_area) date_patterns
  | None => ret None
  end.

Definition priority_pass (text_lower : str) : M (option str) :=
  first_returnM (priority_keyword text_lower) priority_keywords.

(** [text_lower[max(0, match.start() - 50):match.start()]] *)
Definition context_before (text_lower : str) (m : Match) : str :=
  slice text_lower (m_start m - 50) (m_start m).

Definition is_due_date (text_lower : str) (m : Match) : bool :=
  existsb (fun kw => re_found kw (context_before text_lower m) false) avoid_keywords.

(** What one match adds to [all_dates]. *)
Definition candidate (text_lower date_format : str) (m : Match) : M (list str) :=
  if is_due_date text_lower m then ret []
  else
    date <- _normalize_date m date_format ;;
    match date with
    | Some d => if truthy date then ret [d] else ret []
    | None => ret []
    end.

Definition candidates_of (text_lower : str) (pf : str * str) : M (list str) :=
  let '(pattern, date_format) := pf in
  collectM (candidate text_lower date_format) (re_finditer pattern text_lower).

(** [all_dates] at the end of the second pass. *)
Definition all_dates (text_lower : str) : M (list str) :=
  collectM (candidates_of text_lower) date_patterns.

(** The last loop: the first grammar that matches decides. *)
Fixpoint fallback_pass (text_lower : str) (l : list (str * str)) : M (option str) :=
  match l with
  | [] => ret None
  | (pattern, date_format) :: l' =>
      match re_search pattern text_lower false with
      | Some m => _normalize_date m date_format
      | None => fallback_pass text_lower l'
      end
  end.

Definition extract_invoice_date (text : str) : M (option str) :=
  let text_lower := lower text in
  first <- priority_pass text_lower ;;
  match first with
  | Some date => ret (Some date)
  | None =>
      dates <- all_dates text_lower ;;
      match dates with
      | _ :: _ => ret (py_min dates)
      | [] => fallback_pass text_lower date_patterns
      end
  end.
End DateExtraction.

(** *** The external capabilities

    Rasterization, OCR and image similarity are not part of the classifier:
    they are the functions below.  [pdf_to_image] answers the image of page 1
    or the message [str(e)] of the exception it raised, which [classify]
    catches.  [ocr_page] and [ocr_header] are what tesseract reads on the page
    and on its header region, with the Portuguese model or, when that raised
    [TesseractError], with the default one.  [header_ssim image name] is the
    similarity of the header crop with the template of [name], resized to the
    crop; [inr None] when [ssim] raised, which [classify_by_template] catches.
    For these three [inl e] is an exception that no handler of the classifier
    catches. *)
Class Capabilities (Path Image : Type) := {
  pdf_to_image : Path -> str + Image;
  ocr_page : Image -> M str;
  ocr_header : Image -> M str;
  header_ssim : Image -> str -> M (option float)
}.

(** A loop that updates its state and stops at the first exception. *)
Fixpoint foldM {A B} (f : B -> A -> M B) (l : list A) (b : B) : M B :=
  match l with
  | [] => ret b
  | a :: l' => b' <- f b a ;; foldM f l' b'
  end.

Section Classify.
Context {db : UnicodeDB} {Path Image : Type} {cap : Capabilities Path Image}.
(** [self.templates]: the suppliers a template was loaded for. *)
Variable templates : list str.

(** [return text.lower()] *)
Definition extract_text_ocr (image : Image) : M str :=
  text <- ocr_page image ;; ret (lower text).
Definition extract_header_text (image : Image) : M str :=
  text <- ocr_header image ;; ret (lower text).

(** *** [classify_by_template] *)

Definition template_step (image : Image) (b : option str * float) (nm : str)
  : M (option str * float) :=
  r <- header_ssim image nm ;;
  match r with
  | Some score => ret (if (snd b <? score)%float then (Some nm, score) else b)
  | None => ret b
  end.

Definition classify_by_template (image : Image) : M (option ClassificationResult) :=
  match templates with
  | [] => ret None
  | _ :: _ =>
      b <- foldM (template_step image) templates (None, 0%float) ;;
      let '(best_match, best_score) := b in
      if truthy best_match && (0.4 <=? best_score)%float then
        match best_match with
        | Some nm =>
            ret (Some (mk_result nm best_score (py "template")
                         [(py "similarity_score", VFloat best_score)]))
        | None => ret None
        end
      else ret None
  end.

(** *** [classify] *)

(** The fusion of the template and keyword results. *)
Definition combine (template_result keyword_result : option ClassificationResult)
    (date : option str) (text : str) : ClassificationResult :=
  match template_result, keyword_result with
  | Some t, Some k =>
      if str_eqb (supplier t) (supplier k) then
        {| supplier := supplier t;
           confidence := (py_max_float (confidence t) (confidence k) + 0.1)%float;
           method := py "hybrid";
           details := [(py "template", VDict (details t));
                       (py "keywords", VDict (details k))];
           invoice_date := date;
           ocr_text := text |}
      else if (confidence k <? confidence t)%float then attach t date text
      else attach k date text
  | Some t, None => attach t date text
  | None, Some k => attach k date text
  | None, None =>
      {| supplier := py "unknown"; confidence := 0%float; method := py "none";
         details := [(py "text_sample", VStr (firstn 500 text))];
         invoice_date := date; ocr_text := text |}
  end.

(** What follows the date extraction. *)
Definition classify_text (image : Image) (text : str) (date : option str)
  : M ClassificationResult :=
  let by_nif :=
    match classify_by_nif text with
    | Some r => if (0.9 <=? confidence r)%float then Some r else None
    | None => None
    end in
  match by_nif with
  | Some r => ret (attach r date text)
  | None =>
      template_result <- classify_by_template image ;;
      ret (combine template_result (classify_by_keywords text) date text)
  end.

(** The invoice date: from the page, else from its header region. *)
Definition document_date (image : Image) (text : str) : M (option str) :=
  date <- extract_invoice_date text ;;
  if truthy date then ret date
  else
    header_text <- extract_header_text image ;;
    extract_invoice_date header_text.

Definition classify (pdf_path : Path) : M ClassificationResult :=
  match pdf_to_image pdf_path with
  | inl msg =>
      ret (mk_result (py "unknown") 0%float (py "error") [(py "error", VStr msg)])
  | inr image =>
      text <- extract_text_ocr image ;;
      date <- document_date image text ;;
      classify_text image text date
  end.
End Classify.

End Classifier.

(** * Specification vocabulary

    The notions the properties below are stated with. *)

Import PyStr Re Classifier.

(** ** Matches of a pattern *)

Section Semantics.
Context {db : UnicodeDB}.
Variable ignorecase : bool.

(** [sem r st st']: the pattern [r] can take the state [st] to [st']. *)
Inductive sem : regex -> mstate -> mstate -> Prop :=
| sem_empty st : sem REmpty st st
| sem_char p t rest' st :
    c_rest (m_cur st) = t :: rest' -> lit_match ignorecase p t = true ->
    sem (RChar p) st (advance t rest' st)
| sem_any t rest' st :
    c_rest (m_cur st) = t :: rest' -> char_eqb t 10%N = false ->
    sem RAny st (advance t rest' st)
| sem_set items t rest' st :
    c_rest (m_cur st) = t :: rest' ->
    existsb (fun it => item_match ignorecase it t) items = true ->
    sem (RSet items) st (advance t rest' st)
| sem_boundary st : at_boundary (m_cur st) = true -> sem RBoundary st st
| sem_seq r1 r2 st st1 st2 : sem r1 st st1 -> sem r2 st1 st2 -> sem (RSeq r1 r2) st st2
| sem_alt_l r1 r2 st st' : sem r1 st st' -> sem (RAlt r1 r2) st st'
| sem_alt_r r1 r2 st st' : sem r2 st st' -> sem (RAlt r1 r2) st st'
| sem_rep_stop hi r st : sem (RRep 0 hi r) st st
| sem_rep_more lo hi r st st1 st2 :
    hi <> Some 0 -> sem r st st1 -> c_pos (m_cur st) < c_pos (m_cur st1) ->
    sem (RRep (pred lo) (option_map pred hi) r) st1 st2 ->
    sem (RRep lo hi r) st st2
| sem_group i r st st1 : sem r st st1 -> sem (RGroup i r) st (close_group i st st1).
End Semantics.

(** The group [i] is closed in the state [st]. *)
Definition defined (i : nat) (st : mstate) : Prop := last_cap i (m_caps st) <> None.

(** The groups every match of a pattern closes. *)
Fixpoint sets (r : regex) : list nat :=
  match r with
  | RGroup i r' => i :: sets r'
  | RSeq r1 r2 => sets r1 ++ sets r2
  | RAlt r1 r2 => filter (fun i => existsb (Nat.eqb i) (sets r2)) (sets r1)
  | RRep lo _ r' => if lo =? 0 then [] else sets r'
  | _ => []
  end.

(** Every match of [r] closes its [n] groups. *)
Definition all_groups_set (r : regex) (n : nat) : Prop :=
  forall i, 1 <= i <= n -> In i (sets r).

(** The pattern compiles, has three groups, and every match closes them. *)
Definition three_groups (pattern : str) : bool :=
  match re_compile pattern with
  | Some (r, n) =>
      (n =? 3) && forallb (fun i => existsb (Nat.eqb i) (sets r)) (seq 1 n)
  | None => false
  end.

(** The positions of a text from a position on. *)
Inductive reaches : cursor -> cursor -> Prop :=
| reaches_here c : reaches c c
| reaches_next prev pos t rest c :
    reaches {| c_prev := Some t; c_pos := S pos; c_rest := rest |} c ->
    reaches {| c_prev := prev; c_pos := pos; c_rest := t :: rest |} c.

(** The expression a pattern made of ordinary characters compiles to. *)
Definition lits (w : str) : regex := fold_right (fun c r => seq_ (RChar c) r) REmpty w.

Definition literal_pattern (w : str) : Prop := re_compile w = Some (lits w, 0).

(** The state after the characters [w] are read. *)
Fixpoint advance_by (w : str) (rest' : str) (st : mstate) : mstate :=
  match w with
  | [] => st
  | c :: w' => advance_by w' rest' (advance c (w' ++ rest') st)
  end.

(** ** Dates *)

(** The days-in-month table of the specification: February has 29. *)
Definition spec_days_in_month (month : Z) : Z :=
  match month with
  | 1 | 3 | 5 | 7 | 8 | 10 | 12 => 31
  | 4 | 6 | 9 | 11 => 30
  | 2 => 29
  | _ => 0
  end%Z.

(** The zero-padded eight digits [YYYYMMDD]. *)
Definition yyyymmdd (y m d : Z) : str :=
  map digit_char
    [ y / 1000 mod 10; y / 100 mod 10; y / 10 mod 10; y mod 10;
      m / 10 mod 10; m mod 10; d / 10 mod 10; d mod 10 ]%Z.

Definition valid_ymd (y m d : Z) : Prop :=
  (2020 <= y <= 2030 /\ 1 <= m <= 12 /\ 1 <= d <= spec_days_in_month m)%Z.

Definition valid_ymdb (y m d : Z) : bool :=
  ((2020 <=? y) && (y <=? 2030) && (1 <=? m) && (m <=? 12) && (1 <=? d)
   && (d <=? spec_days_in_month m))%Z.

Definition is_yyyymmdd (s : str) : Prop :=
  exists y m d, valid_ymd y m d /\ s = yyyymmdd y m d.

(** A computation whose result, if it is a date, is a valid one. *)
Definition yields_valid (r : M (option str)) : Prop :=
  forall d, r = inr (Some d) -> is_yyyymmdd d.

(** A computation that raises only what the [except] clause catches. *)
Definition catchable {A} (r : M A) : Prop :=
  match r with
  | inl ValueError | inl IndexError | inr _ => True
  | inl _ => False
  end.

(** [a <= b] on strings: [b] is not smaller than [a]. *)
Definition str_le (a b : str) : Prop := str_ltb b a = false.

Section DateSpec.
Context {db : UnicodeDB}.

(** The date a match normalizes to, if it does. *)
Definition date_of (m : Match) (date_format : str) : list str :=
  match _normalize_date m date_format with
  | inr (Some d) => [d]
  | _ => []
  end.

(** The date of the leftmost match of a grammar in a text. *)
Definition leftmost_date (area : str) (pf : str * str) : list str :=
  match re_search (fst pf) area false with
  | Some m => date_of m (snd pf)
  | None => []
  end.

(** The 30 characters after the leftmost occurrence of a label. *)
Definition label_windows (text_lower label : str) : list str :=
  match re_search label text_lower false with
  | Some km => [slice text_lower (m_end km) (m_end km + 30)]
  | None => []
  end.

(** The dates of the priority pass: label by label and, in the window of a
    label, grammar by grammar, the date of the grammar's leftmost match. *)
Definition priority_dates (text_lower : str) : list str :=
  flat_map (fun label =>
              flat_map (fun area => flat_map (leftmost_date area) date_patterns)
                       (label_windows text_lower label))
           priority_keywords.

(** The last [n] characters of the [i] characters a text begins with: the
    [n] characters immediately before position [i], or all the characters
    before it when they are fewer. *)
Definition preceding (n : nat) (text : str) (i : nat) : str :=
  skipn (i - n) (firstn i text).

(** A match is dropped by the second pass when "vencimento", "pagamento" or
    "prazo" occurs in the 50 characters immediately before it. *)
Definition near_avoid_keyword (text_lower : str) (m : Match) : bool :=
  existsb (fun kw => contains kw (preceding 50 text_lower (m_start m)))
          [py "vencimento"; py "pagamento"; py "prazo"].

(** The candidate set of the second pass: grammar by grammar, the dates of
    the matches that are kept. *)
Definition surviving_dates (text_lower : str) : list str :=
  flat_map (fun pf =>
              flat_map (fun m => if near_avoid_keyword text_lower m then []
                                 else date_of m (snd pf))
                       (re_finditer (fst pf) text_lower))
           date_patterns.
End DateSpec.

(** ** Tax IDs *)

Definition is_nif_result (r : ClassificationResult) : Prop :=
  confidence r = 0.95%float /\ method r = py "nif".

(** The entries [classify_by_nif] skips by name. *)
Definition skipped (nm : str) : bool :=
  existsb (str_eqb nm) [py "teofilo_gd"; py "teofilo_nc"].

Section NifSpec.
Context {db : UnicodeDB}.

(** What the loop over the surface forms returns for one supplier. *)
Definition nif_outcome (nm : str) (p : SupplierProfile) (text : str)
  : option ClassificationResult :=
  match dict_get SPECIAL_CASES (nif p) with
  | Some cases => first_return (special_case (nif p) text) cases
  | None => Some (mk_result nm 0.95%float (py "nif") [(py "matched_nif", VStr (nif p))])
  end.
End NifSpec.

(** No surface form of a registered tax ID (one of nine characters or more)
    occurs in the text. *)
Definition no_tax_id_form (text : str) : bool :=
  forallb (fun e : str * SupplierProfile =>
             (length (nif (snd e)) <? 9)
             || forallb (fun form => negb (contains form text)) (nif_patterns (nif (snd e))))
          SUPPLIERS.

(** The same, but for the forms of the tax ID [n]. *)
Definition no_other_tax_id_form (n text : str) : bool :=
  forallb (fun e : str * SupplierProfile =>
             str_eqb (nif (snd e)) n || (length (nif (snd e)) <? 9)
             || forallb (fun form => negb (contains form text)) (nif_patterns (nif (snd e))))
          SUPPLIERS.

Definition padoca_result : ClassificationResult :=
  mk_result (py "padoca") 0.95%float (py "nif") [(py "matched_nif", VStr (py "000000000"))].

(** The entries the loop visits before it reaches the entry [nm]. *)
Fixpoint entries_before (nm : str) (l : list (str * SupplierProfile))
  : list (str * SupplierProfile) :=
  match l with
  | [] => []
  | e :: l' => if str_eqb (fst e) nm then [] else e :: entries_before nm l'
  end.

(** The entries after the entry [nm]. *)
Fixpoint entries_after (nm : str) (l : list (str * SupplierProfile))
  : list (str * SupplierProfile) :=
  match l with
  | [] => []
  | e :: l' => if str_eqb (fst e) nm then l' else entries_after nm l'
  end.

Definition before_padoca : list (str * SupplierProfile) :=
  entries_before (py "padoca") SUPPLIERS.

(** ** Keyword scores *)

(** Scores are quotients of small integers: on them the float comparisons of
    the code are the comparisons of the exact quotients. *)
Definition small : list nat := [1; 2; 3; 4; 5].

Definition score_checks (a b c d : nat) : bool :=
  implb ((a <=? b) && (c <=? d))
    (Bool.eqb (py_truediv a b <? py_truediv c d)%float (a * d <? c * b)
     && (0 <? py_truediv a b)%float
     && Bool.eqb (0.3 <=? py_truediv a b)%float (3 * b <=? 10 * a)
     && (py_min_float 0.9 (0.5 + py_truediv a b * 0.4) <=? 0.9)%float
     && (0.4 <=? py_min_float 0.9 (0.5 + py_truediv a b * 0.4))%float
     && (py_min_float 0.9 (0.5 + py_truediv a b * 0.4) <=? 1)%float).

Definition entry := (str * SupplierProfile)%type.

(** The number of keywords of a profile. *)
Definition total (p : SupplierProfile) : nat := length (keywords p).

Definition bounded_entry (e : entry) : Prop := 1 <= total (snd e) <= 5.

Section KeywordSpec.
Context {db : UnicodeDB}.
Variable text : str.

(** The number of keywords of a profile found in the text. *)
Definition hits (p : SupplierProfile) : nat := length (matched_keywords text p).

(** The comparison of the exact scores [hits p / total p]. *)
Definition score_lt (p q : SupplierProfile) : Prop := hits p * total q < hits q * total p.
Definition score_le (p q : SupplierProfile) : Prop := hits p * total q <= hits q * total p.

(** What the loop has found after the entries [pre]. *)
Definition best_so_far (pre : list entry) (b : best) : Prop :=
  (b = (None, 0%float, []) /\ forall e, In e pre -> hits (snd e) = 0) \/
  (exists l1 nm p l2,
      pre = l1 ++ (nm, p) :: l2 /\
      b = (Some nm, py_truediv (hits p) (total p), matched_keywords text p) /\
      1 <= hits p /\
      (forall e, In e l1 -> score_lt (snd e) p) /\
      (forall e, In e l2 -> score_le (snd e) p)).

(** The result of [classify_by_keywords] for the supplier [nm] with the
    profile [p]. *)
Definition keywords_result (nm : str) (p : SupplierProfile) : ClassificationResult :=
  mk_result nm
    (py_min_float 0.9 (0.5 + py_truediv (hits p) (total p) * 0.4))%float
    (py "keywords")
    [ (py "matched_keywords", VStrList (matched_keywords text p));
      (py "score", VFloat (py_truediv (hits p) (total p))) ].

(** [nm], with the profile [p], is the entry of the registry with the best
    score: the entries before it score strictly less, those after it at most
    as much. *)
Definition best_supplier (nm : str) (p : SupplierProfile) : Prop :=
  exists l1 l2,
    SUPPLIERS = l1 ++ (nm, p) :: l2 /\
    1 <= hits p /\
    (forall e, In e l1 -> score_lt (snd e) p) /\
    (forall e, In e l2 -> score_le (snd e) p).
End KeywordSpec.

(** ** Floats *)

(** The order of two positive finite binary64 numbers, given by mantissa and
    exponent. *)
Definition pos_lt (m1 : positive) (e1 : Z) (m2 : positive) (e2 : Z) : Prop :=
  (e1 < e2 \/ (e1 = e2 /\ Zpos m1 < Zpos m2))%Z.

(** The mantissa of 0.1 (its exponent is -56). *)
Definition tenth_mantissa : positive := 7205759403792794.

(** A normal positive number between 1/4 and 2. *)
Definition is_normal_pos (x : float) : Prop :=
  exists m e, Prim2SF x = S754_finite false m e /\
              Zpos (digits2_pos m) = 53%Z /\ (-54 <= e <= -52)%Z.

(** ** A test environment *)

(** Capabilities that read the same page, header and similarity scores on
    every document. *)
Definition fixed_capabilities (page header : str) (scores : str -> option float)
  : Capabilities unit unit :=
  {| pdf_to_image := fun _ => inr tt;
     ocr_page := fun _ => inr page;
     ocr_header := fun _ => inr header;
     header_ssim := fun _ nm => inr (scores nm) |}.

(** Capabilities whose rasterizer fails with the message [msg]. *)
Definition failing_capabilities (msg : str) : Capabilities unit unit :=
  {| pdf_to_image := fun _ => inl msg;
     ocr_page := fun _ => inr [];
     ocr_header := fun _ => inr [];
     header_ssim := fun _ _ => inr None |}.

(** Capabilities that read [page] on the page and whose OCR of the header
    region raises (tesseract missing, or failing with both models). *)
Definition header_failing_capabilities (page : str) : Capabilities unit unit :=
  {| pdf_to_image := fun _ => inr tt;
     ocr_page := fun _ => inr page;
     ocr_header := fun _ => inl LibraryError;
     header_ssim := fun _ _ => inr None |}.

(** A text with a due date after "vencimento", the date 10-01-2025 that
    starts 51 characters after the first letter of that word, and a later
    date. *)
Definition due_date_sample : str :=
  py "vencimento 01/01/2024 total com iva, taxa em vigor 10-01-2025 2025/02/01".
(** * Properties *)

(** ** Strings *)

Lemma char_eqb_eq (a b : char) : char_eqb a b = true <-> a = b.
Proof. unfold char_eqb. apply N.eqb_eq. Qed.

Lemma str_eqb_eq (a b : str) : str_eqb a b = true <-> a = b.
Proof.
  revert b. induction a as [|x a IH]; intros [|y b]; simpl; split; intro H;
    try reflexivity; try discriminate.
  - apply andb_true_iff in H as [Hx Ha].
    apply char_eqb_eq in Hx. apply IH in Ha. now subst.
  - injection H as -> ->. apply andb_true_iff. split.
    + now apply char_eqb_eq.
    + now apply IH.
Qed.

Lemma str_eqb_refl (a : str) : str_eqb a a = true.
Proof. now apply str_eqb_eq. Qed.

Lemma str_eqb_neq (a b : str) : str_eqb a b = false <-> a <> b.
Proof.
  split.
  - intros H E. apply str_eqb_eq in E. congruence.
  - intro H. destruct (str_eqb a b) eqn:E; [|reflexivity].
    apply str_eqb_eq in E. contradiction.
Qed.

Lemma starts_with_spec (p s : str) :
  starts_with p s = true <-> exists t, s = p ++ t.
Proof.
  revert s. induction p as [|c p IH]; intros s; simpl.
  - split; [intros _; now exists s | reflexivity].
  - destruct s as [|d s].
    + split; [discriminate | intros [t Ht]; discriminate].
    + rewrite andb_true_iff, char_eqb_eq, IH. split.
      * intros [-> [t ->]]. now exists t.
      * intros [t Ht]. injection Ht as -> ->. split; [reflexivity | now exists t].
Qed.

(** [p in s] holds exactly when [p] occurs in [s]. *)
Lemma contains_spec (p s : str) :
  contains p s = true <-> exists a b, s = a ++ p ++ b.
Proof.
  induction s as [|d s IH].
  - simpl. rewrite orb_false_r, starts_with_spec. split.
    + intros [t Ht]. now exists [], t.
    + intros [a [b Hab]]. destruct a; [now exists b | discriminate].
  - cbn [contains]. rewrite orb_true_iff, IH, starts_with_spec. split.
    + intros [[t Ht] | [a [b Hab]]].
      * now exists [], t.
      * exists (d :: a), b. now rewrite Hab.
    + intros [[|x a] [b Hab]].
      * left. now exists b.
      * right. injection Hab as -> ->. now exists a, b.
Qed.

(** ** Loops with an early return *)

Section Loops.
Context {X B : Type}.
Implicit Types (f : X -> option B) (l : list X).

Lemma first_return_app f l1 l2 :
  first_return f (l1 ++ l2) =
  match first_return f l1 with
  | Some b => Some b
  | None => first_return f l2
  end.
Proof.
  induction l1 as [|x l1 IH]; simpl; [reflexivity|].
  destruct (f x); [reflexivity | exact IH].
Qed.

Lemma first_return_none f l :
  first_return f l = None <-> forall x, In x l -> f x = None.
Proof.
  induction l as [|x l IH]; simpl.
  - split; [intros _ y [] | reflexivity].
  - destruct (f x) eqn:E.
    + split; [discriminate|]. intro H. rewrite (H x) in E by now left. discriminate.
    + rewrite IH. split.
      * intros H y [<- | Hy]; [exact E | now apply H].
      * intros H y Hy. apply H. now right.
Qed.

Lemma first_return_in f l b :
  first_return f l = Some b -> exists x, In x l /\ f x = Some b.
Proof.
  induction l as [|x l IH]; simpl; [discriminate|].
  destruct (f x) eqn:E.
  - intros [= <-]. exists x. split; [now left | exact E].
  - intro H. destruct (IH H) as [y [Hy Hf]]. exists y. split; [now right | exact Hf].
Qed.

Lemma first_return_found f l x :
  In x l -> f x <> None -> first_return f l <> None.
Proof.
  intros Hin Hx H. rewrite first_return_none in H. now apply Hx, H.
Qed.

(** Every value a loop can return has the property its iterations give it. *)
Lemma first_return_all (P : B -> Prop) f l b :
  (forall x c, In x l -> f x = Some c -> P c) -> first_return f l = Some b -> P b.
Proof.
  intros H Hb. destruct (first_return_in _ _ _ Hb) as [x [Hx Hf]]. eauto.
Qed.
End Loops.
(** ** The matcher: what a successful match is *)

Section SemanticsFacts.
Context {db : UnicodeDB}.
Variable ignorecase : bool.

Local Abbreviation sem := (sem ignorecase).

Lemma option_alt_some {A} (a b : option A) x :
  option_alt a b = Some x -> a = Some x \/ (a = None /\ b = Some x).
Proof. destruct a; simpl; intro H; [now left | now right]. Qed.

Lemma step_some {A} ok st (k : mstate -> option A) x :
  step ok st k = Some x ->
  exists t rest', c_rest (m_cur st) = t :: rest' /\ ok t = true /\
                  k (advance t rest' st) = Some x.
Proof.
  unfold step. destruct (c_rest (m_cur st)) as [|t rest']; [discriminate|].
  destruct (ok t) eqn:E; [|discriminate]. intro H. now exists t, rest'.
Qed.

Lemma rep_sound {A} (r : regex) (body : mstate -> (mstate -> option A) -> option A) :
  (forall st k x, body st k = Some x -> exists st', sem r st st' /\ k st' = Some x) ->
  forall fuel lo hi st k x,
    rep body fuel lo hi st k = Some x ->
    exists st', sem (RRep lo hi r) st st' /\ k st' = Some x.
Proof.
  intros Hbody. induction fuel as [|f IH]; intros lo hi st k x; [discriminate|].
  cbn [rep]. intro H. apply option_alt_some in H as [H | [_ H]].
  - assert (Hhi : hi <> Some 0).
    { intro E. subst hi. discriminate. }
    assert (Hb : body st (fun st' =>
               if c_pos (m_cur st') <=? c_pos (m_cur st) then None
               else rep body f (pred lo) (option_map pred hi) st' k) = Some x).
    { destruct hi as [[|n]|]; [contradiction | exact H | exact H]. }
    apply Hbody in Hb as [st1 [Hs1 Hk]].
    destruct (c_pos (m_cur st1) <=? c_pos (m_cur st)) eqn:Hp; [discriminate|].
    apply Nat.leb_gt in Hp.
    apply IH in Hk as [st2 [Hs2 Hk2]].
    exists st2. split; [|exact Hk2]. eapply sem_rep_more; eassumption.
  - destruct (lo =? 0) eqn:El; [|discriminate]. apply Nat.eqb_eq in El. subst lo.
    exists st. split; [constructor | exact H].
Qed.

(** Soundness: a result of the matcher comes from a match. *)
Lemma rmatch_sound {A} (r : regex) :
  forall st (k : mstate -> option A) x,
    rmatch ignorecase r st k = Some x ->
    exists st', sem r st st' /\ k st' = Some x.
Proof.
  induction r as [ | p | | items | | r1 IH1 r2 IH2 | r1 IH1 r2 IH2 | lo hi r IH | i r IH];
    intros st k x H; cbn [rmatch] in H.
  - exists st. split; [constructor | exact H].
  - apply step_some in H as [t [rest' [Hr [Hok Hk]]]].
    eexists. split; [eapply sem_char; eassumption | exact Hk].
  - apply step_some in H as [t [rest' [Hr [Hok Hk]]]].
    apply negb_true_iff in Hok.
    eexists. split; [eapply sem_any; eassumption | exact Hk].
  - apply step_some in H as [t [rest' [Hr [Hok Hk]]]].
    eexists. split; [eapply sem_set; eassumption | exact Hk].
  - destruct (at_boundary (m_cur st)) eqn:E; [|discriminate].
    exists st. split; [now constructor | exact H].
  - apply IH1 in H as [st1 [H1 H]]. apply IH2 in H as [st2 [H2 H]].
    exists st2. split; [econstructor; eassumption | exact H].
  - apply option_alt_some in H as [H | [_ H]].
    + apply IH1 in H as [st' [H1 H]]. exists st'. split; [now apply sem_alt_l | exact H].
    + apply IH2 in H as [st' [H2 H]]. exists st'. split; [now apply sem_alt_r | exact H].
  - eapply rep_sound; [|exact H]. intros st0 k0 x0. apply IH.
  - apply IH in H as [st1 [H1 H]].
    eexists. split; [apply sem_group; exact H1 | exact H].
Qed.

(** A match moves forward, by as many characters as it takes from the text. *)
Lemma sem_position r st st' :
  sem r st st' ->
  c_pos (m_cur st) <= c_pos (m_cur st') /\
  c_pos (m_cur st') + length (c_rest (m_cur st')) =
  c_pos (m_cur st) + length (c_rest (m_cur st)).
Proof.
  induction 1; cbn [advance close_group m_cur c_pos c_rest];
    try match goal with H : c_rest _ = _ :: _ |- _ => rewrite H; cbn [length] end;
    lia.
Qed.

(** *** Groups *)

Lemma sem_defined_mono r st st' i :
  sem r st st' -> defined i st -> defined i st'.
Proof.
  induction 1; unfold defined in *; cbn [advance close_group m_caps last_cap]; auto.
  intro Hd. destruct (i =? i0); [discriminate | auto].
Qed.

Lemma sem_sets r st st' i :
  sem r st st' -> In i (sets r) -> defined i st'.
Proof.
  induction 1; cbn [sets]; try contradiction.
  - intro Hi. apply in_app_or in Hi as [Hi | Hi].
    + eapply sem_defined_mono; eauto.
    + auto.
  - intro Hi. apply filter_In in Hi as [Hi _]. auto.
  - intro Hi. apply filter_In in Hi as [_ Hi].
    apply existsb_exists in Hi as [j [Hj Hij]]. apply Nat.eqb_eq in Hij. subst j. auto.
  - intro Hi. destruct (lo =? 0); [contradiction|].
    eapply sem_defined_mono; eauto.
  - intros [<- | Hi].
    + unfold defined. cbn [close_group m_caps last_cap]. rewrite Nat.eqb_refl. discriminate.
    + unfold defined. cbn [close_group m_caps last_cap].
      destruct (i =? i0); [discriminate | now apply IHsem].
Qed.

(** *** Completeness: where a match exists, the matcher finds one *)

Lemma option_alt_found {A} (a b : option A) :
  a <> None \/ b <> None -> option_alt a b <> None.
Proof. destruct a; simpl; [discriminate | now intros [H | H]]. Qed.

Lemma step_found {A} ok st (k : mstate -> option A) t rest' :
  c_rest (m_cur st) = t :: rest' -> ok t = true -> k (advance t rest' st) <> None ->
  step ok st k <> None.
Proof. unfold step. intros -> ->. auto. Qed.

Lemma rep_complete {A} (r : regex) (body : mstate -> (mstate -> option A) -> option A) :
  (forall st st' k, sem r st st' -> k st' <> None -> body st k <> None) ->
  forall fuel lo hi st st' k,
    length (c_rest (m_cur st)) < fuel ->
    sem (RRep lo hi r) st st' -> k st' <> None ->
    rep body fuel lo hi st k <> None.
Proof.
  intros Hbody. induction fuel as [|f IH]; intros lo hi st st' k Hfuel Hsem Hk; [lia|].
  cbn [rep]. apply option_alt_found.
  inversion Hsem; subst.
  - right. exact Hk.
  - left.
    match goal with H : sem r st st1 |- _ => rename H into Hr end.
    match goal with H : _ < _ |- _ => rename H into Hpos end.
    match goal with H : sem (RRep _ _ _) st1 st' |- _ => rename H into Hrest end.
    assert (Hb : body st (fun st'0 =>
               if c_pos (m_cur st'0) <=? c_pos (m_cur st) then None
               else rep body f (pred lo) (option_map pred hi) st'0 k) <> None).
    { apply (Hbody st st1); [exact Hr|].
      replace (c_pos (m_cur st1) <=? c_pos (m_cur st)) with false
        by (symmetry; apply Nat.leb_gt; exact Hpos).
      apply (IH _ _ st1 st'); [|exact Hrest | exact Hk].
      pose proof (sem_position _ _ _ Hr). lia. }
    destruct hi as [[|n]|]; [congruence | exact Hb | exact Hb].
Qed.

Lemma rmatch_complete {A} (r : regex) :
  forall st st' (k : mstate -> option A),
    sem r st st' -> k st' <> None -> rmatch ignorecase r st k <> None.
Proof.
  induction r as [ | p | | items | | r1 IH1 r2 IH2 | r1 IH1 r2 IH2 | lo hi r IH | i r IH];
    intros st st' k Hsem Hk; cbn [rmatch]; inversion Hsem; subst.
  - exact Hk.
  - eapply step_found; eassumption.
  - eapply step_found; [eassumption | now apply negb_true_iff | assumption].
  - eapply step_found; eassumption.
  - match goal with H : at_boundary _ = true |- _ => rewrite H end. exact Hk.
  - eapply IH1; [eassumption|]. eapply IH2; eassumption.
  - apply option_alt_found. left. eapply IH1; eassumption.
  - apply option_alt_found. right. eapply IH2; eassumption.
  - eapply rep_complete; [| | exact Hsem | exact Hk]; [|lia].
    intros sa sb ka. apply IH.
  - eapply rep_complete; [| | exact Hsem | exact Hk]; [|lia].
    intros sa sb ka. apply IH.
  - eapply IH; eassumption.
Qed.
End SemanticsFacts.

(** *** [re.search] and [re.finditer] *)

Section SearchFacts.
Context {db : UnicodeDB}.
Variables (ignorecase : bool) (r : regex) (n : nat).

Lemma search_from_some prev pos rest m :
  search_from ignorecase r n prev pos rest = Some m ->
  exists c, reaches {| c_prev := prev; c_pos := pos; c_rest := rest |} c /\
            match_here ignorecase r n c = Some m.
Proof.
  revert prev pos. induction rest as [|t rest IH]; intros prev pos; cbn [search_from];
    intro H; apply option_alt_some in H as [H | [_ H]].
  - eexists. split; [constructor | exact H].
  - discriminate.
  - eexists. split; [constructor | exact H].
  - apply IH in H as [c [Hc Hm]]. exists c. split; [now constructor | exact Hm].
Qed.

Lemma search_from_found prev pos rest c :
  reaches {| c_prev := prev; c_pos := pos; c_rest := rest |} c ->
  match_here ignorecase r n c <> None ->
  search_from ignorecase r n prev pos rest <> None.
Proof.
  intros Hr Hm. remember {| c_prev := prev; c_pos := pos; c_rest := rest |} as c0 eqn:E.
  revert prev pos rest E. induction Hr as [c | prev' pos' t rest' c Hr IH];
    intros prev pos rest E.
  - subst c. destruct rest; cbn [search_from]; apply option_alt_found; now left.
  - injection E as <- <- <-. cbn [search_from]. apply option_alt_found. right.
    now apply IH.
Qed.

Lemma finditer_from_in fuel c m :
  In m (finditer_from ignorecase r n fuel c) ->
  exists c', match_here ignorecase r n c' = Some m.
Proof.
  revert c. induction fuel as [|f IH]; intros c; cbn [finditer_from]; [contradiction|].
  destruct (search_from _ _ _ _ _ _) as [m0|] eqn:E; [|contradiction].
  intros [<- | Hin].
  - apply search_from_some in E as [c' [_ Hm]]. now exists c'.
  - destruct (m_end m0 =? m_start m0).
    + destruct (c_rest (m_after m0)); [contradiction | eapply IH; exact Hin].
    + eapply IH; exact Hin.
Qed.

(** A match of a pattern all of whose groups are closed by every match
    reports every group. *)
Lemma match_here_groups c m :
  all_groups_set r n -> match_here ignorecase r n c = Some m ->
  length (m_groups m) = n /\ Forall (fun g => g <> None) (m_groups m).
Proof.
  intros Hall H. unfold match_here in H.
  apply rmatch_sound in H as [st' [Hsem H]]. injection H as <-.
  cbn [m_groups]. unfold groups_of. split.
  - now rewrite length_map, length_seq.
  - apply Forall_forall. intros g Hg. apply in_map_iff in Hg as [i [<- Hi]].
    apply in_seq in Hi. eapply (sem_sets _ _ _ _ i Hsem). apply Hall. lia.
Qed.
End SearchFacts.
(** ** Patterns without special characters *)

Section Literal.
Context {db : UnicodeDB}.

Lemma sem_seq_ ignorecase r1 r2 st st' :
  sem ignorecase (seq_ r1 r2) st st' <->
  exists st1, sem ignorecase r1 st st1 /\ sem ignorecase r2 st1 st'.
Proof.
  assert (Hseq : sem ignorecase (RSeq r1 r2) st st' <->
                 exists st1, sem ignorecase r1 st st1 /\ sem ignorecase r2 st1 st').
  { split.
    - intro H. inversion H; subst. eauto.
    - intros [st1 [H1 H2]]. econstructor; eassumption. }
  assert (Hr : r2 = REmpty ->
               (sem ignorecase r1 st st' <->
                exists st1, sem ignorecase r1 st st1 /\ sem ignorecase r2 st1 st')).
  { intros ->. split.
    - intro H. exists st'. split; [exact H | constructor].
    - intros [st1 [H1 H2]]. inversion H2; subst. exact H1. }
  assert (Hl : r1 = REmpty ->
               (sem ignorecase r2 st st' <->
                exists st1, sem ignorecase r1 st st1 /\ sem ignorecase r2 st1 st')).
  { intros ->. split.
    - intro H. exists st. split; [constructor | exact H].
    - intros [st1 [H1 H2]]. inversion H1; subst. exact H2. }
  unfold seq_. destruct r2; try (now apply Hr); destruct r1; try (now apply Hl); exact Hseq.
Qed.

Lemma lits_sem w st st' :
  sem false (lits w) st st' <->
  exists rest', c_rest (m_cur st) = w ++ rest' /\ st' = advance_by w rest' st.
Proof.
  revert st. induction w as [|c w IH]; intro st; cbn [lits fold_right advance_by app].
  - split.
    + intro H. inversion H; subst. now exists (c_rest (m_cur st')).
    + intros [rest' [_ ->]]. constructor.
  - fold (lits w). rewrite sem_seq_. split.
    + intros [st1 [H1 H2]]. inversion H1; subst.
      match goal with H : lit_match false c t = true |- _ =>
        apply char_eqb_eq in H; subst t end.
      apply IH in H2 as [rest2 [Hr ->]]. cbn [advance m_cur c_rest] in Hr. subst rest'.
      exists rest2. split; [assumption | reflexivity].
    + intros [rest' [Hr ->]]. exists (advance c (w ++ rest') st). split.
      * apply sem_char; [exact Hr | apply char_eqb_eq; reflexivity].
      * apply IH. exists rest'. split; reflexivity.
Qed.
End Literal.

Section Reaches.
Lemma reaches_suffix c0 c :
  reaches c0 c -> exists a, c_rest c0 = a ++ c_rest c.
Proof.
  induction 1 as [c | prev pos t rest c _ [a Ha]].
  - now exists [].
  - cbn [c_rest] in *. exists (t :: a). now rewrite Ha.
Qed.

Lemma reaches_app a : forall prev pos s,
  exists prev', reaches {| c_prev := prev; c_pos := pos; c_rest := a ++ s |}
                        {| c_prev := prev'; c_pos := pos + length a; c_rest := s |}.
Proof.
  induction a as [|t a IH]; intros prev pos s; cbn [app length].
  - exists prev. rewrite Nat.add_0_r. constructor.
  - destruct (IH (Some t) (S pos) s) as [prev' H]. exists prev'.
    constructor. now rewrite <- Nat.add_succ_comm.
Qed.
End Reaches.

Section LiteralSearch.
Context {db : UnicodeDB}.

(** Searching for a pattern of ordinary characters, case-sensitively, is the
    substring test. *)
Lemma re_found_literal w text :
  literal_pattern w -> re_found w text false = contains w text.
Proof.
  intro Hw. unfold re_found, re_search. rewrite Hw.
  destruct (search_from false (lits w) 0 None 0 text) as [m|] eqn:E.
  - symmetry. apply contains_spec.
    apply search_from_some in E as [c [Hreach Hm]].
    unfold match_here in Hm. apply rmatch_sound in Hm as [st' [Hsem _]].
    apply lits_sem in Hsem as [rest' [Hr _]]. cbn [m_cur] in Hr.
    apply reaches_suffix in Hreach as [a Ha]. cbn [c_rest] in Ha.
    exists a, rest'. now rewrite Ha, Hr.
  - symmetry. apply not_true_is_false. intro Hc.
    apply contains_spec in Hc as [a [b ->]].
    destruct (reaches_app a None 0 (w ++ b)) as [prev' Hreach].
    apply (search_from_found false (lits w) 0) in Hreach; [congruence|].
    unfold match_here. eapply rmatch_complete.
    + apply lits_sem. exists b. split; reflexivity.
    + discriminate.
Qed.

Lemma avoid_keywords_literal : Forall literal_pattern avoid_keywords.
Proof. repeat constructor. Qed.
End LiteralSearch.

(** ** Dates *)

Section DateFacts.
#[local] Open Scope Z_scope.

Lemma valid_ymdb_spec y m d : valid_ymdb y m d = true <-> valid_ymd y m d.
Proof.
  unfold valid_ymdb, valid_ymd. rewrite !andb_true_iff, !Z.leb_le. tauto.
Qed.

Lemma format_year y :
  2020 <= y <= 2030 ->
  format_0d 4 y = map digit_char [y / 1000 mod 10; y / 100 mod 10; y / 10 mod 10; y mod 10].
Proof.
  intro H.
  assert (E : y = 2020 \/ y = 2021 \/ y = 2022 \/ y = 2023 \/ y = 2024 \/ y = 2025 \/
              y = 2026 \/ y = 2027 \/ y = 2028 \/ y = 2029 \/ y = 2030) by lia.
  repeat destruct E as [E | E]; subst y; reflexivity.
Qed.

Lemma format_two n :
  1 <= n <= 31 -> format_0d 2 n = map digit_char [n / 10 mod 10; n mod 10].
Proof.
  intro H.
  assert (E : exists k : nat, (k < 31)%nat /\ n = 1 + Z.of_nat k).
  { exists (Z.to_nat (n - 1)). lia. }
  destruct E as [k [Hk ->]].
  do 31 (destruct k as [|k]; [reflexivity|]). lia.
Qed.

Lemma days_in_month_nth m :
  1 <= m <= 12 -> nth_error days_in_month (Z.to_nat m) = Some (spec_days_in_month m).
Proof.
  intro H.
  assert (E : m = 1 \/ m = 2 \/ m = 3 \/ m = 4 \/ m = 5 \/ m = 6 \/ m = 7 \/ m = 8 \/
              m = 9 \/ m = 10 \/ m = 11 \/ m = 12) by lia.
  repeat destruct E as [E | E]; subst m; reflexivity.
Qed.

Lemma spec_days_le_31 m : spec_days_in_month m <= 31.
Proof.
  unfold spec_days_in_month.
  repeat match goal with |- context [match ?x with _ => _ end] => destruct x end; lia.
Qed.

(** The validity gate never raises: it answers the formatted date when the
    three numbers are a valid date, and [None] otherwise. *)
Lemma validate_value y m d :
  validate y m d = ret (if valid_ymdb y m d then Some (yyyymmdd y m d) else None).
Proof.
  unfold validate, valid_ymdb.
  destruct ((2020 <=? y) && (y <=? 2030) && (1 <=? m) && (m <=? 12)) eqn:Eym;
    cbn [andb negb]; [|reflexivity].
  apply andb_true_iff in Eym as [Eym Hm2]. apply andb_true_iff in Eym as [Eym Hm1].
  apply andb_true_iff in Eym as [Hy1 Hy2].
  apply Z.leb_le in Hy1, Hy2, Hm1, Hm2.
  destruct (1 <=? d) eqn:Hd1; cbn [andb negb].
  2:{ reflexivity. }
  apply Z.leb_le in Hd1.
  destruct (d <=? 31) eqn:Hd31; cbn [negb].
  - apply Z.leb_le in Hd31.
    unfold getitem. rewrite days_in_month_nth by lia. cbn [ret bind].
    rewrite Z.ltb_antisym. destruct (d <=? spec_days_in_month m); cbn [negb]; [|reflexivity].
    rewrite format_year, (format_two m), (format_two d) by lia. reflexivity.
  - apply Z.leb_gt in Hd31. pose proof (spec_days_le_31 m).
    replace (d <=? spec_days_in_month m) with false by (symmetry; apply Z.leb_gt; lia).
    reflexivity.
Qed.

End DateFacts.

Section Normalize.
Context {db : UnicodeDB}.

Lemma yields_valid_bind {A} (m : M A) (f : A -> M (option str)) :
  (forall a, yields_valid (f a)) -> yields_valid (bind m f).
Proof. intros H d. destruct m as [e | a]; [discriminate | apply H]. Qed.

Lemma yields_valid_none : yields_valid (ret None).
Proof. intros d H. discriminate. Qed.

Lemma yields_valid_validate y m d : yields_valid (validate y m d).
Proof.
  intros s. rewrite validate_value. destruct (valid_ymdb y m d) eqn:E; [|discriminate].
  intros [= <-]. exists y, m, d. split; [now apply valid_ymdb_spec | reflexivity].
Qed.

Lemma normalize_body_valid groups date_format :
  yields_valid (normalize_body groups date_format).
Proof.
  unfold normalize_body.
  repeat match goal with
         | |- yields_valid (if ?c then _ else _) => destruct c
         | |- yields_valid (bind _ _) => apply yields_valid_bind; intro
         | |- yields_valid (match ?x with _ => _ end) => destruct x
         | |- yields_valid (validate _ _ _) => apply yields_valid_validate
         | |- yields_valid (ret None) => apply yields_valid_none
         end.
Qed.

(** Every date [_normalize_date] answers is a valid [YYYYMMDD] string. *)
Lemma normalize_date_valid m date_format d :
  _normalize_date m date_format = inr (Some d) -> is_yyyymmdd d.
Proof.
  unfold _normalize_date. intro H.
  apply (normalize_body_valid (m_groups m) date_format).
  destruct (normalize_body _ _) as [[] | o]; try discriminate; exact H.
Qed.

Lemma catchable_bind {A B} (m : M A) (f : A -> M B) :
  catchable m -> (forall a, m = inr a -> catchable (f a)) -> catchable (bind m f).
Proof. destruct m as [e | a]; simpl; [tauto | auto]. Qed.

Lemma catchable_int s : catchable (int_ (Some s)).
Proof. unfold int_. now destruct (py_int s). Qed.

Lemma catchable_validate y m d : catchable (validate y m d).
Proof. rewrite validate_value. exact I. Qed.

Lemma normalize_body_catchable a b c date_format :
  catchable (normalize_body [Some a; Some b; Some c] date_format).
Proof.
  unfold normalize_body, getitem. cbn [nth_error ret bind].
  repeat match goal with
         | |- catchable (if ?c then _ else _) => destruct c
         | |- catchable (bind (int_ (Some _)) _) =>
             apply catchable_bind; [apply catchable_int | intros ? _]
         | |- catchable (bind (lower_ (Some _)) _) => cbn [lower_ ret bind]
         | |- catchable (match ?x with _ => _ end) => destruct x
         | |- catchable (validate _ _ _) => apply catchable_validate
         | |- catchable (ret _) => exact I
         end.
Qed.

(** On a match that reports three groups, [_normalize_date] returns (a date
    or [None]): it never raises. *)
Lemma normalize_date_total m date_format a b c :
  m_groups m = [Some a; Some b; Some c] ->
  exists o, _normalize_date m date_format = inr o.
Proof.
  intro Hg. unfold _normalize_date. rewrite Hg.
  pose proof (normalize_body_catchable a b c date_format) as H.
  destruct (normalize_body _ _) as [[] | o]; simpl in H; try contradiction; eauto.
Qed.
End Normalize.

(** The six grammars compile, have three groups, and every match closes the
    three of them. *)
Lemma date_patterns_groups : forallb (fun pf => three_groups (fst pf)) date_patterns = true.
Proof. vm_compute. reflexivity. Qed.

Section DateMatches.
Context {db : UnicodeDB}.

Lemma three_groups_match pattern r n ignorecase c m :
  three_groups pattern = true -> re_compile pattern = Some (r, n) ->
  match_here ignorecase r n c = Some m ->
  exists a b c, m_groups m = [Some a; Some b; Some c].
Proof.
  unfold three_groups. intros H Hc Hm. rewrite Hc in H.
  apply andb_true_iff in H as [Hn Hall]. apply Nat.eqb_eq in Hn. subst n.
  destruct (match_here_groups ignorecase r 3 c m) as [Hlen Hdef]; [|exact Hm|].
  - intros i Hi. rewrite forallb_forall in Hall.
    specialize (Hall i). rewrite in_seq in Hall.
    assert (Hx : existsb (Nat.eqb i) (sets r) = true) by (apply Hall; lia).
    apply existsb_exists in Hx as [j [Hj Hij]]. apply Nat.eqb_eq in Hij. now subst j.
  - destruct (m_groups m) as [|[a|] [|[b|] [|[c0|] [|? ?]]]]; try discriminate;
      repeat match goal with
             | H : Forall _ (_ :: _) |- _ => inversion H; clear H; subst
             end; try congruence.
    now exists a, b, c0.
Qed.

Lemma date_search_groups pattern date_format text m :
  In (pattern, date_format) date_patterns ->
  re_search pattern text false = Some m ->
  exists a b c, m_groups m = [Some a; Some b; Some c].
Proof.
  intros Hin H. pose proof date_patterns_groups as Hg. rewrite forallb_forall in Hg.
  specialize (Hg _ Hin). cbn [fst] in Hg.
  unfold re_search in H. destruct (re_compile pattern) as [[r n]|] eqn:Ec; [|discriminate].
  apply search_from_some in H as [c [_ Hm]].
  eapply three_groups_match; eassumption.
Qed.

Lemma date_finditer_groups pattern date_format text m :
  In (pattern, date_format) date_patterns ->
  In m (re_finditer pattern text) ->
  exists a b c, m_groups m = [Some a; Some b; Some c].
Proof.
  intros Hin H. pose proof date_patterns_groups as Hg. rewrite forallb_forall in Hg.
  specialize (Hg _ Hin). cbn [fst] in Hg.
  unfold re_finditer in H. destruct (re_compile pattern) as [[r n]|] eqn:Ec; [|contradiction].
  apply finditer_from_in in H as [c Hm].
  eapply three_groups_match; eassumption.
Qed.
End DateMatches.
(** ** Loops that may raise *)

Section LoopsM.
Context {X B : Type}.

Lemma first_returnM_hd (f : X -> M (option B)) (g : X -> list B) (l : list X) :
  (forall x, In x l -> f x = inr (hd_error (g x))) ->
  first_returnM f l = inr (hd_error (flat_map g l)).
Proof.
  induction l as [|x l IH]; intro H; [reflexivity|].
  cbn [first_returnM flat_map]. rewrite (H x) by now left. cbn [bind].
  destruct (g x) as [|b bs]; cbn [hd_error app].
  - apply IH. intros y Hy. apply H. now right.
  - reflexivity.
Qed.

Lemma collectM_flat_map (f : X -> M (list B)) (g : X -> list B) (l : list X) :
  (forall x, In x l -> f x = inr (g x)) ->
  collectM f l = inr (flat_map g l).
Proof.
  induction l as [|x l IH]; intro H; [reflexivity|].
  cbn [collectM flat_map]. rewrite (H x) by now left. cbn [bind].
  rewrite IH; [reflexivity|]. intros y Hy. apply H. now right.
Qed.
End LoopsM.

(** ** [min] on strings *)

Section MinFacts.
Ltac n_compare :=
  repeat match goal with
         | H : (_ <? _)%N = true |- _ => apply N.ltb_lt in H
         | H : (_ <? _)%N = false |- _ => apply N.ltb_ge in H
         | |- context [(?a <? ?b)%N] => destruct (a <? b)%N eqn:?
         | H : context [(?a <? ?b)%N] |- _ => destruct (a <? b)%N eqn:?
         end.

Lemma str_le_refl a : str_le a a.
Proof.
  unfold str_le. induction a as [|x a IH]; [reflexivity|].
  cbn [str_ltb]. now rewrite N.ltb_irrefl.
Qed.

Lemma str_ltb_trans a b c :
  str_ltb a b = true -> str_ltb b c = true -> str_ltb a c = true.
Proof.
  revert b c. induction a as [|x a IH]; intros [|y b] [|z c]; cbn [str_ltb];
    try discriminate; try reflexivity.
  intros H1 H2. n_compare; try discriminate; try reflexivity; try lia.
  eapply IH; eassumption.
Qed.

(** [a <= b < c] gives [a < c]. *)
Lemma str_le_ltb_trans a b c :
  str_le a b -> str_ltb b c = true -> str_ltb a c = true.
Proof.
  unfold str_le. revert b c. induction a as [|x a IH]; intros [|y b] [|z c]; cbn [str_ltb];
    try discriminate; try reflexivity.
  intros H1 H2. n_compare; try discriminate; try reflexivity; try lia.
  eapply IH; eassumption.
Qed.

Lemma py_min_from_spec l : forall first,
  In (py_min_from first l) (first :: l) /\
  forall x, In x (first :: l) -> str_le (py_min_from first l) x.
Proof.
  induction l as [|y l IH]; intro first; cbn [py_min_from fold_left].
  - split; [now left|]. intros x [<- | []]. apply str_le_refl.
  - fold (py_min_from (if str_ltb y first then y else first) l).
    destruct (IH (if str_ltb y first then y else first)) as [Hin Hle].
    set (m := py_min_from _ l) in *. split.
    + destruct Hin as [Hm | Hm]; [|now right; right].
      rewrite <- Hm. destruct (str_ltb y first); [right; now left | now left].
    + assert (Hm1 : str_le m (if str_ltb y first then y else first)) by (apply Hle; now left).
      intros x [<- | [<- | Hx]]; [| |apply Hle; now right].
      * destruct (str_ltb y first) eqn:E; [|exact Hm1].
        unfold str_le. destruct (str_ltb first m) eqn:Efm; [|reflexivity].
        pose proof (str_ltb_trans _ _ _ E Efm) as Hym.
        unfold str_le in Hm1. congruence.
      * destruct (str_ltb y first) eqn:E; [exact Hm1|].
        unfold str_le. destruct (str_ltb y m) eqn:Eym; [|reflexivity].
        pose proof (str_le_ltb_trans first y m E Eym) as Hfm.
        unfold str_le in Hm1. congruence.
Qed.

(** [min(l)] is an element of [l] that no element of [l] is smaller than. *)
Lemma py_min_spec l d :
  py_min l = Some d -> In d l /\ forall x, In x l -> str_le d x.
Proof.
  destruct l as [|first l]; [discriminate|]. intros [= <-]. apply py_min_from_spec.
Qed.
End MinFacts.
Section Passes.
Context {db : UnicodeDB}.

Lemma valid_date_truthy d : is_yyyymmdd d -> truthy (Some d) = true.
Proof. intros [y [m [dd [_ ->]]]]. reflexivity. Qed.

(** On a match of one of the six grammars, [_normalize_date] answers the
    date of the match, or [None]. *)
Lemma normalize_date_of pattern date_format text m :
  In (pattern, date_format) date_patterns ->
  re_search pattern text false = Some m \/ In m (re_finditer pattern text) ->
  _normalize_date m date_format = inr (hd_error (date_of m date_format)).
Proof.
  intros Hin Hm.
  assert (Hg : exists a b c, m_groups m = [Some a; Some b; Some c]).
  { destruct Hm as [Hm | Hm];
      [eapply date_search_groups | eapply date_finditer_groups]; eassumption. }
  destruct Hg as [a [b [c Hg]]].
  destruct (normalize_date_total m date_format a b c Hg) as [o Ho].
  unfold date_of. rewrite Ho. now destruct o.
Qed.

Lemma date_of_valid m date_format d : In d (date_of m date_format) -> is_yyyymmdd d.
Proof.
  unfold date_of. destruct (_normalize_date m date_format) as [e | [d'|]] eqn:E;
    try contradiction.
  intros [<- | []]. eapply normalize_date_valid; exact E.
Qed.

Lemma date_of_truthy m date_format :
  truthy (hd_error (date_of m date_format)) =
  match date_of m date_format with [] => false | _ :: _ => true end.
Proof.
  destruct (date_of m date_format) as [|d l] eqn:E; [reflexivity|].
  cbn [hd_error]. apply valid_date_truthy. apply (date_of_valid m date_format).
  rewrite E. now left.
Qed.

Lemma date_in_area_value area pf :
  In pf date_patterns ->
  date_in_area area pf = inr (hd_error (leftmost_date area pf)).
Proof.
  destruct pf as [pattern date_format]. intro Hin.
  unfold date_in_area, leftmost_date. cbn [fst snd].
  destruct (re_search pattern area false) as [m|] eqn:E; [|reflexivity].
  rewrite (normalize_date_of pattern date_format area m Hin (or_introl E)).
  cbn [bind]. rewrite date_of_truthy.
  now destruct (date_of m date_format).
Qed.

Lemma priority_keyword_value text_lower label :
  priority_keyword text_lower label =
  inr (hd_error (flat_map (fun area => flat_map (leftmost_date area) date_patterns)
                          (label_windows text_lower label))).
Proof.
  unfold priority_keyword, label_windows.
  destruct (re_search label text_lower false) as [km|]; [|reflexivity].
  cbn [flat_map]. rewrite app_nil_r.
  apply first_returnM_hd. intros pf Hin. now apply date_in_area_value.
Qed.

(** The first pass returns the first of the priority dates. *)
Lemma priority_pass_value text_lower :
  priority_pass text_lower = inr (hd_error (priority_dates text_lower)).
Proof.
  unfold priority_pass, priority_dates.
  apply first_returnM_hd. intros label _. apply priority_keyword_value.
Qed.

(** The slice [text_lower[max(0, start - 50):start]] is made of the 50
    characters before the match, or of all of them when they are fewer. *)
Lemma context_before_preceding text_lower m :
  context_before text_lower m = preceding 50 text_lower (m_start m).
Proof.
  unfold context_before, slice, preceding.
  rewrite firstn_skipn_comm. f_equal. f_equal. lia.
Qed.

(** What [preceding] is when the text is cut at the match. *)
Lemma preceding_split (before context rest : str) i :
  i = length before + length context ->
  length context = 50 \/ (before = [] /\ length context < 50) ->
  preceding 50 (before ++ context ++ rest) i = context.
Proof.
  intros -> H. unfold preceding.
  replace (firstn (length before + length context) (before ++ context ++ rest))
    with (before ++ context).
  2:{ rewrite app_assoc, <- length_app, firstn_app, firstn_all, Nat.sub_diag.
      cbn [firstn]. now rewrite app_nil_r. }
  destruct H as [H | [-> H]].
  - replace (length before + length context - 50) with (length before) by lia.
    rewrite skipn_app, skipn_all, Nat.sub_diag. reflexivity.
  - cbn [length app Nat.add].
    replace (length context - 50) with 0 by lia. reflexivity.
Qed.

Lemma literal_found_contains (l : list str) (context : str) :
  Forall literal_pattern l ->
  existsb (fun kw => re_found kw context false) l =
  existsb (fun kw => contains kw context) l.
Proof.
  intro H. induction H as [|kw l Hkw _ IH]; [reflexivity|].
  cbn [existsb]. now rewrite (re_found_literal kw _ Hkw), IH.
Qed.

Lemma is_due_date_value text_lower m :
  is_due_date text_lower m = near_avoid_keyword text_lower m.
Proof.
  unfold is_due_date, near_avoid_keyword.
  rewrite context_before_preceding.
  rewrite (literal_found_contains _ _ avoid_keywords_literal).
  unfold avoid_keywords. reflexivity.
Qed.

(** The filter in words: one of the three markers occurs in the characters
    before the match. *)
Lemma near_avoid_keyword_spec text_lower m :
  near_avoid_keyword text_lower m = true <->
  exists kw a b,
    In kw [py "vencimento"; py "pagamento"; py "prazo"] /\
    preceding 50 text_lower (m_start m) = a ++ kw ++ b.
Proof.
  unfold near_avoid_keyword. rewrite existsb_exists. split.
  - intros [kw [Hin Hc]]. apply contains_spec in Hc as [a [b Hab]].
    exists kw, a, b. split; assumption.
  - intros [kw [a [b [Hin Hab]]]]. exists kw. split; [exact Hin|].
    apply contains_spec. exists a, b. exact Hab.
Qed.

Lemma candidate_value text_lower pf m :
  In pf date_patterns -> In m (re_finditer (fst pf) text_lower) ->
  candidate text_lower (snd pf) m =
  inr (if near_avoid_keyword text_lower m then [] else date_of m (snd pf)).
Proof.
  destruct pf as [pattern date_format]. cbn [fst snd]. intros Hin Hm.
  unfold candidate. rewrite is_due_date_value.
  destruct (near_avoid_keyword text_lower m); [reflexivity|].
  rewrite (normalize_date_of pattern date_format text_lower m Hin (or_intror Hm)).
  cbn [bind]. rewrite date_of_truthy.
  unfold date_of.
  now destruct (_normalize_date m date_format) as [e | [d|]].
Qed.

(** The second pass collects the surviving dates. *)
Lemma all_dates_value text_lower :
  all_dates text_lower = inr (surviving_dates text_lower).
Proof.
  unfold all_dates, surviving_dates.
  apply collectM_flat_map. intros [pattern date_format] Hin.
  unfold candidates_of. cbn [fst snd].
  apply collectM_flat_map. intros m Hm.
  now apply (candidate_value text_lower (pattern, date_format) m).
Qed.

(** The last pass neither raises nor answers an invalid date. *)
Lemma fallback_pass_value text_lower l :
  incl l date_patterns ->
  exists o, fallback_pass text_lower l = inr o /\
            forall d, o = Some d -> is_yyyymmdd d.
Proof.
  induction l as [|[pattern date_format] l IH]; intro Hincl.
  - exists None. split; [reflexivity | discriminate].
  - cbn [fallback_pass].
    destruct (re_search pattern text_lower false) as [m|] eqn:E.
    + rewrite (normalize_date_of pattern date_format text_lower m);
        [|apply Hincl; now left | now left].
      eexists. split; [reflexivity|].
      intros d Hd. apply (date_of_valid m date_format).
      destruct (date_of m date_format); [discriminate|].
      injection Hd as ->. now left.
    + apply IH. intros x Hx. apply Hincl. now right.
Qed.

Lemma priority_dates_valid text_lower d :
  In d (priority_dates text_lower) -> is_yyyymmdd d.
Proof.
  unfold priority_dates. intro H.
  apply in_flat_map in H as [label [_ H]].
  apply in_flat_map in H as [area [_ H]].
  apply in_flat_map in H as [pf [_ H]].
  unfold leftmost_date in H. destruct (re_search _ _ _); [|contradiction].
  eapply date_of_valid; exact H.
Qed.

Lemma surviving_dates_valid text_lower d :
  In d (surviving_dates text_lower) -> is_yyyymmdd d.
Proof.
  unfold surviving_dates. intro H.
  apply in_flat_map in H as [pf [_ H]].
  apply in_flat_map in H as [m [_ H]].
  destruct (near_avoid_keyword text_lower m); [contradiction|].
  eapply date_of_valid; exact H.
Qed.

(** [extract_invoice_date], pass by pass. *)
Lemma extract_invoice_date_value text :
  extract_invoice_date text =
  match priority_dates (lower text) with
  | d :: _ => inr (Some d)
  | [] =>
      match surviving_dates (lower text) with
      | _ :: _ => inr (py_min (surviving_dates (lower text)))
      | [] => fallback_pass (lower text) date_patterns
      end
  end.
Proof.
  unfold extract_invoice_date. rewrite priority_pass_value. cbn [bind].
  destruct (priority_dates (lower text)); cbn [hd_error]; [|reflexivity].
  rewrite all_dates_value. cbn [bind].
  now destruct (surviving_dates (lower text)).
Qed.

(** [extract_invoice_date] never raises. *)
Lemma extract_invoice_date_total text :
  exists o, extract_invoice_date text = inr o.
Proof.
  rewrite extract_invoice_date_value.
  destruct (priority_dates (lower text)); [|eauto].
  destruct (surviving_dates (lower text)); [|eauto].
  destruct (fallback_pass_value (lower text) date_patterns) as [o [Ho _]];
    [apply incl_refl | eauto].
Qed.

Lemma extract_invoice_date_valid text d :
  extract_invoice_date text = inr (Some d) -> is_yyyymmdd d.
Proof.
  rewrite extract_invoice_date_value.
  destruct (priority_dates (lower text)) as [|d0 l] eqn:Ep.
  - destruct (surviving_dates (lower text)) as [|d1 l1] eqn:Es.
    + destruct (fallback_pass_value (lower text) date_patterns) as [o [Ho Hv]];
        [apply incl_refl|].
      rewrite Ho. intros [= ->]. now apply Hv.
    + intro H.
      assert (Hm : py_min (d1 :: l1) = Some d) by congruence.
      apply py_min_spec in Hm as [Hin _].
      apply (surviving_dates_valid (lower text)). now rewrite Es.
  - intros [= <-]. apply (priority_dates_valid (lower text)). rewrite Ep. now left.
Qed.
End Passes.
(** ** Tax-ID matching *)

Section Nif.
Context {db : UnicodeDB}.

(** The surface forms of the registry are lower-case already. *)
Lemma nif_patterns_lower :
  forallb (fun e => forallb (fun f => str_eqb (lower f) f) (nif_patterns (nif (snd e))))
          SUPPLIERS = true.
Proof. vm_compute. reflexivity. Qed.

Lemma nif_pattern_lower nm p form :
  In (nm, p) SUPPLIERS -> In form (nif_patterns (nif p)) -> lower form = form.
Proof.
  intros Hin Hf.
  pose proof nif_patterns_lower as H. rewrite forallb_forall in H.
  specialize (H _ Hin). rewrite forallb_forall in H. now apply str_eqb_eq, H.
Qed.

(** Every special-case list ends with its keyword-less default, so the loop
    over it always returns. *)
Lemma special_cases_return n text cases :
  dict_get SPECIAL_CASES n = Some cases ->
  exists r, first_return (special_case n text) cases = Some r.
Proof.
  unfold SPECIAL_CASES. cbn [dict_get].
  destruct (str_eqb n _); [|discriminate].
  intros [= <-]. cbn [first_return special_case].
  repeat match goal with |- context [if ?c then _ else _] => destruct c end; eauto.
Qed.

Lemma special_case_result n text c r :
  special_case n text c = Some r -> is_nif_result r.
Proof.
  destruct c as [nm [|kw kws]]; unfold special_case.
  - intros [= <-]. now split.
  - destruct (existsb _ _); [|discriminate]. intros [= <-]. now split.
Qed.

Lemma nif_pattern_result nm p text pattern r :
  nif_pattern nm p text pattern = Some r -> is_nif_result r.
Proof.
  unfold nif_pattern. destruct (contains _ _); [|discriminate].
  destruct (dict_get _ _) as [cases|].
  - apply first_return_all. intros c r' _. apply special_case_result.
  - intros [= <-]. now split.
Qed.

Lemma classify_by_nif_result text r :
  classify_by_nif text = Some r -> is_nif_result r.
Proof.
  unfold classify_by_nif. apply first_return_all. intros [nm p] r' _.
  unfold nif_supplier.
  destruct (existsb _ _); [discriminate|]. destruct (_ || _); [discriminate|].
  apply first_return_all. intros pattern c _. apply nif_pattern_result.
Qed.


(** The two entries the loop skips carry the tax ID of the first entry. *)
Lemma skipped_entries_nif :
  forallb (fun e => if skipped (fst e) then str_eqb (nif (snd e)) (py "500099871") else true)
          SUPPLIERS = true.
Proof. vm_compute. reflexivity. Qed.

Lemma teofilo_first :
  exists p rest, SUPPLIERS = (py "teofilo", p) :: rest /\ nif p = py "500099871".
Proof. eexists _, _. split; reflexivity. Qed.

Lemma nif_supplier_found nm p text form :
  skipped nm = false ->
  9 <= length (nif p) ->
  In form (nif_patterns (nif p)) ->
  contains (lower form) text = true ->
  nif_supplier text (nm, p) <> None.
Proof.
  intros Hs Hlen Hin Hc. unfold nif_supplier. fold (skipped nm). rewrite Hs.
  assert (Hne : match nif p with [] => true | _ :: _ => false end = false).
  { destruct (nif p); [simpl in Hlen; lia | reflexivity]. }
  rewrite Hne.
  replace (length (nif p) <? 9) with false by (symmetry; apply Nat.ltb_ge; exact Hlen).
  cbn [orb].
  apply first_return_found with (x := form); [exact Hin|].
  unfold nif_pattern. rewrite Hc.
  destruct (dict_get SPECIAL_CASES (nif p)) as [cases|] eqn:Ed; [|discriminate].
  destruct (special_cases_return _ text _ Ed) as [r ->]. discriminate.
Qed.

(** A surface form of a registered tax ID in the text makes
    [classify_by_nif] return. *)
Lemma classify_by_nif_found nm p text form :
  In (nm, p) SUPPLIERS ->
  9 <= length (nif p) ->
  In form (nif_patterns (nif p)) ->
  contains form text = true ->
  exists r, classify_by_nif text = Some r.
Proof.
  intros Hin Hlen Hf Hc.
  assert (H : classify_by_nif text <> None).
  { destruct (skipped nm) eqn:Hs.
    - pose proof skipped_entries_nif as Hk. rewrite forallb_forall in Hk.
      specialize (Hk _ Hin). cbn [fst snd] in Hk. rewrite Hs in Hk.
      apply str_eqb_eq in Hk.
      destruct teofilo_first as [pT [rest [HS HT]]].
      unfold classify_by_nif.
      apply first_return_found with (x := (py "teofilo", pT)).
      + rewrite HS. now left.
      + apply nif_supplier_found with (form := form).
        * reflexivity.
        * rewrite HT. rewrite Hk in Hlen. exact Hlen.
        * rewrite HT, <- Hk. exact Hf.
        * rewrite (nif_pattern_lower _ _ _ Hin Hf). exact Hc.
    - unfold classify_by_nif.
      apply first_return_found with (x := (nm, p)); [exact Hin|].
      apply nif_supplier_found with (form := form); try assumption.
      rewrite (nif_pattern_lower _ _ _ Hin Hf). exact Hc. }
  destruct (classify_by_nif text) as [r|]; [now exists r | contradiction].
Qed.


Lemma first_return_guard {X B} (c : X -> bool) (R : option B) (l : list X) :
  first_return (fun x => if c x then R else None) l =
  if existsb c l then R else None.
Proof.
  induction l as [|x l IH]; simpl; [reflexivity|].
  destruct (c x); simpl.
  - destruct R; [reflexivity|]. rewrite IH. now destruct (existsb c l).
  - exact IH.
Qed.

Lemma nif_supplier_value nm p text :
  skipped nm = false ->
  9 <= length (nif p) ->
  nif_supplier text (nm, p) =
  if existsb (fun form => contains (lower form) text) (nif_patterns (nif p))
  then nif_outcome nm p text else None.
Proof.
  intros Hs Hlen. unfold nif_supplier. fold (skipped nm). rewrite Hs.
  assert (Hne : match nif p with [] => true | _ :: _ => false end = false).
  { destruct (nif p); [simpl in Hlen; lia | reflexivity]. }
  rewrite Hne.
  replace (length (nif p) <? 9) with false by (symmetry; apply Nat.ltb_ge; exact Hlen).
  cbn [orb]. unfold nif_pattern. fold (nif_outcome nm p text).
  apply first_return_guard.
Qed.

Lemma nif_supplier_none nm p text :
  In (nm, p) SUPPLIERS ->
  (9 <= length (nif p) ->
   forall form, In form (nif_patterns (nif p)) -> contains form text = false) ->
  nif_supplier text (nm, p) = None.
Proof.
  intros Hin H. destruct (skipped nm) eqn:Hs.
  - unfold nif_supplier. fold (skipped nm). now rewrite Hs.
  - destruct (le_lt_dec 9 (length (nif p))) as [Hlen | Hlen].
    + rewrite nif_supplier_value by assumption.
      replace (existsb _ _) with false; [reflexivity|].
      symmetry. apply not_true_is_false. intro E.
      apply existsb_exists in E as [form [Hf Hc]].
      rewrite (nif_pattern_lower _ _ _ Hin Hf) in Hc.
      rewrite (H Hlen form Hf) in Hc. discriminate.
    + unfold nif_supplier. fold (skipped nm). rewrite Hs.
      replace (length (nif p) <? 9) with true by (symmetry; now apply Nat.ltb_lt).
      now rewrite orb_true_r.
Qed.

(** Text with a surface form of the shared tax ID is classified by the
    special-case list alone. *)
Lemma classify_by_nif_teofilo text :
  existsb (fun form => contains form text) (nif_patterns (py "500099871")) = true ->
  classify_by_nif text =
  first_return (special_case (py "500099871") text)
    [ (py "teofilo_gd", [py "guia.*devolu"; py "produto.*reclamado"; py "produto.*devolvido"]);
      (py "teofilo_nc", [py "nota.*cr[ée]dito"; py "c\s*caau"]);
      (py "teofilo", []) ].
Proof.
  intro H. destruct teofilo_first as [pT [rest [HS HT]]].
  unfold classify_by_nif. rewrite HS. cbn [first_return].
  rewrite nif_supplier_value; [|reflexivity | rewrite HT; vm_compute; lia].
  rewrite HT.
  replace (existsb (fun form => contains (lower form) text) (nif_patterns (py "500099871")))
    with true by (symmetry; exact H).
  unfold nif_outcome. rewrite HT.
    change (dict_get SPECIAL_CASES (py "500099871")) with
      (Some [ (py "teofilo_gd", [py "guia.*devolu"; py "produto.*reclamado"; py "produto.*devolvido"]);
              (py "teofilo_nc", [py "nota.*cr[ée]dito"; py "c\s*caau"]);
              (py "teofilo", @nil str) ]).
  cbv beta iota.
  destruct (special_cases_return (py "500099871") text _ eq_refl) as [r Hr].
  rewrite Hr. symmetry. exact Hr.
Qed.


Lemma padoca_position :
  exists p rest,
    SUPPLIERS = before_padoca ++ (py "padoca", p) :: rest /\ nif p = py "000000000".
Proof. eexists _, _. split; reflexivity. Qed.

Lemma before_padoca_nifs :
  forallb (fun e => negb (str_eqb (nif (snd e)) (py "000000000"))) before_padoca = true.
Proof. vm_compute. reflexivity. Qed.

Lemma classify_by_nif_placeholder text :
  contains (py "000000000") text = true ->
  (forall nm p form,
      In (nm, p) SUPPLIERS -> nif p <> py "000000000" -> 9 <= length (nif p) ->
      In form (nif_patterns (nif p)) -> contains form text = false) ->
  classify_by_nif text = Some padoca_result.
Proof.
  intros Hz Hother.
  destruct padoca_position as [p [rest [HS Hp]]].
  unfold classify_by_nif. rewrite HS, first_return_app.
  replace (first_return (nif_supplier text) before_padoca) with (@None ClassificationResult).
  - cbn [first_return]. rewrite nif_supplier_value; [|reflexivity | rewrite Hp; vm_compute; lia].
    rewrite Hp.
    replace (existsb _ _) with true.
    + unfold nif_outcome. rewrite Hp. reflexivity.
    + symmetry. apply existsb_exists. exists (py "000000000"). split; [now left | exact Hz].
  - symmetry. apply first_return_none. intros [nm q] Hin.
    assert (HinS : In (nm, q) SUPPLIERS) by (rewrite HS; apply in_or_app; now left).
    apply nif_supplier_none; [exact HinS|].
    intros Hlen form Hf. apply (Hother nm q); try assumption.
    pose proof before_padoca_nifs as Hb. rewrite forallb_forall in Hb.
    specialize (Hb _ Hin). cbn [snd] in Hb.
    apply negb_true_iff, str_eqb_neq in Hb. exact Hb.
Qed.

End Nif.
(** ** Keyword scores *)

Lemma score_checks_small :
  forallb (fun a => forallb (fun b => forallb (fun c => forallb (fun d =>
    score_checks a b c d) small) small) small) small = true.
Proof. vm_compute. reflexivity. Qed.

Lemma in_small n : 1 <= n <= 5 -> In n small.
Proof. intro H. unfold small. simpl. lia. Qed.

Lemma score_checks_ok a b c d :
  1 <= a <= b -> b <= 5 -> 1 <= c <= d -> d <= 5 -> score_checks a b c d = true.
Proof.
  intros Ha Hb Hc Hd. pose proof score_checks_small as H.
  rewrite forallb_forall in H. specialize (H a (in_small a ltac:(lia))).
  rewrite forallb_forall in H. specialize (H b (in_small b ltac:(lia))).
  rewrite forallb_forall in H. specialize (H c (in_small c ltac:(lia))).
  rewrite forallb_forall in H. exact (H d (in_small d ltac:(lia))).
Qed.

Section ScoreFacts.
Variables a b c d : nat.
Hypothesis (Hab : 1 <= a <= b) (Hb : b <= 5) (Hcd : 1 <= c <= d) (Hd : d <= 5).

Lemma score_checks_all :
  (py_truediv a b <? py_truediv c d)%float = (a * d <? c * b) /\
  (0 <? py_truediv a b)%float = true /\
  (0.3 <=? py_truediv a b)%float = (3 * b <=? 10 * a) /\
  (py_min_float 0.9 (0.5 + py_truediv a b * 0.4) <=? 0.9)%float = true /\
  (0.4 <=? py_min_float 0.9 (0.5 + py_truediv a b * 0.4))%float = true /\
  (py_min_float 0.9 (0.5 + py_truediv a b * 0.4) <=? 1)%float = true.
Proof.
  pose proof (score_checks_ok a b c d Hab Hb Hcd Hd) as H.
  unfold score_checks in H.
  replace ((a <=? b) && (c <=? d)) with true in H
    by (symmetry; apply andb_true_iff; split; apply Nat.leb_le; lia).
  cbn [implb] in H.
  repeat (apply andb_true_iff in H as [H ?]).
  repeat split; try assumption; now apply Bool.eqb_prop.
Qed.
End ScoreFacts.

Lemma frac_le_lt_trans a b c d e f :
  1 <= b -> a * d <= c * b -> c * f < e * d -> a * f < e * b.
Proof.
  intros Hb H1 H2.
  assert (H3 : a * d * f <= c * b * f) by (apply Nat.mul_le_mono_r; exact H1).
  assert (H4 : c * f * b < e * d * b) by (apply Nat.mul_lt_mono_pos_r; lia).
  assert (H5 : a * f * d < e * b * d) by lia.
  destruct (le_lt_dec (e * b) (a * f)) as [H6 | H6]; [|exact H6].
  assert (e * b * d <= a * f * d) by (apply Nat.mul_le_mono_r; exact H6). lia.
Qed.

Lemma frac_lt_lt_trans a b c d e f :
  1 <= b -> a * d < c * b -> c * f < e * d -> a * f < e * b.
Proof. intros Hb H1 H2. apply (frac_le_lt_trans a b c d e f); lia. Qed.

Section KeywordScores.
Context {db : UnicodeDB}.
Variable text : str.

Local Abbreviation hits := (hits text).
Local Abbreviation score_lt := (score_lt text).
Local Abbreviation score_le := (score_le text).
Local Abbreviation best_so_far := (best_so_far text).

Lemma hits_le_total p : hits p <= total p.
Proof. unfold hits, total, matched_keywords. apply filter_length_le. Qed.

Lemma keywords_step_inv pre b e :
  Forall bounded_entry pre -> bounded_entry e ->
  best_so_far pre b -> best_so_far (pre ++ [e]) (keywords_step text b e).
Proof.
  intros Hpre He Hinv. destruct e as [nm p]. unfold bounded_entry in He. cbn [snd] in He.
  unfold keywords_step.
  destruct b as [[bm bs] bms].
  destruct (matched_keywords text p) as [|kw kws] eqn:Em.
  - (* no keyword of this entry matches *)
    assert (Hh : hits p = 0) by (unfold hits; now rewrite Em).
    destruct Hinv as [[Hb Hall] | [l1 [nm0 [p0 [l2 [Hl [Hb [Hh0 [H1 H2]]]]]]]]].
    + left. split; [exact Hb|]. intros e Hin. apply in_app_or in Hin as [Hin | [<- | []]]; auto.
    + right. exists l1, nm0, p0, (l2 ++ [(nm, p)]).
      split; [rewrite Hl, <- app_assoc; reflexivity|].
      split; [exact Hb|]. split; [exact Hh0|]. split; [exact H1|].
      intros e Hin. apply in_app_or in Hin as [Hin | [<- | []]]; [auto|].
      unfold score_le. cbn [snd]. rewrite Hh. lia.
  - rewrite <- Em. fold (hits p). fold (total p).
    assert (Hh : 1 <= hits p) by (unfold hits; rewrite Em; simpl; lia).
    pose proof (hits_le_total p) as Hle.
    destruct Hinv as [[Hb Hall] | [l1 [nm0 [p0 [l2 [Hl [Hb [Hh0 [H1 H2]]]]]]]]].
    + injection Hb as -> -> ->.
      destruct (score_checks_all (hits p) (total p) (hits p) (total p)) as [_ [Hpos _]];
        try lia.
      rewrite Hpos. right. exists pre, nm, p, [].
      split; [reflexivity|]. split; [reflexivity|]. split; [exact Hh|].
      split; [|intros e []].
      intros e Hin. unfold score_lt. rewrite (Hall e Hin).
      rewrite Forall_forall in Hpre. specialize (Hpre e Hin).
      unfold bounded_entry in Hpre. nia.
    + injection Hb as -> -> ->.
      assert (Hb0 : 1 <= total p0 <= 5).
      { rewrite Forall_forall in Hpre. apply (Hpre (nm0, p0)).
        rewrite Hl. apply in_or_app. right. now left. }
      pose proof (hits_le_total p0) as Hle0.
      destruct (score_checks_all (hits p0) (total p0) (hits p) (total p)) as [Hlt _];
        try lia.
      rewrite Hlt. destruct (hits p0 * total p <? hits p * total p0) eqn:E.
      * apply Nat.ltb_lt in E. right. exists (l1 ++ (nm0, p0) :: l2), nm, p, [].
        split; [now rewrite Hl|]. split; [reflexivity|]. split; [exact Hh|].
        split; [|intros e []].
        intros e Hin. unfold score_lt.
        assert (He1 : 1 <= total (snd e)).
        { rewrite Forall_forall in Hpre. apply (Hpre e). now rewrite Hl. }
        apply in_app_or in Hin as [Hin | [<- | Hin]]; cbn [snd].
        -- specialize (H1 e Hin). unfold score_lt in H1.
           eapply frac_lt_lt_trans; eassumption.
        -- exact E.
        -- specialize (H2 e Hin). unfold score_le in H2.
           eapply frac_le_lt_trans; eassumption.
      * apply Nat.ltb_ge in E. right. exists l1, nm0, p0, (l2 ++ [(nm, p)]).
        split; [rewrite Hl, <- app_assoc; reflexivity|].
        split; [reflexivity|]. split; [exact Hh0|]. split; [exact H1|].
        intros e Hin. apply in_app_or in Hin as [Hin | [<- | []]]; [auto|].
        unfold score_le. cbn [snd]. lia.
Qed.

Lemma keywords_fold_inv l : forall pre b,
  Forall bounded_entry pre -> Forall bounded_entry l ->
  best_so_far pre b ->
  best_so_far (pre ++ l) (fold_left (keywords_step text) l b).
Proof.
  induction l as [|e l IH]; intros pre b Hpre Hl Hinv.
  - now rewrite app_nil_r.
  - cbn [fold_left]. inversion Hl as [|? ? He Hl']; subst.
    replace (pre ++ e :: l) with ((pre ++ [e]) ++ l) by (now rewrite <- app_assoc).
    apply IH.
    + apply Forall_app. split; [exact Hpre | now constructor].
    + exact Hl'.
    + now apply keywords_step_inv.
Qed.
End KeywordScores.

Lemma registry_keywords_bounded :
  forallb (fun e : entry =>
             (1 <=? length (keywords (snd e))) && (length (keywords (snd e)) <=? 5)
             && negb (str_eqb (fst e) []))
          SUPPLIERS = true.
Proof. vm_compute. reflexivity. Qed.

Lemma registry_bounded : Forall bounded_entry SUPPLIERS.
Proof.
  apply Forall_forall. intros e He.
  pose proof registry_keywords_bounded as H. rewrite forallb_forall in H.
  specialize (H e He). apply andb_true_iff in H as [H _].
  apply andb_true_iff in H as [H1 H2].
  apply Nat.leb_le in H1, H2. unfold bounded_entry, total. lia.
Qed.

Lemma registry_names nm p : In (nm, p) SUPPLIERS -> truthy (Some nm) = true.
Proof.
  intro He. pose proof registry_keywords_bounded as H. rewrite forallb_forall in H.
  specialize (H _ He). apply andb_true_iff in H as [_ H]. cbn [fst] in H.
  destruct nm; [discriminate | reflexivity].
Qed.

Section KeywordResult.
Context {db : UnicodeDB}.

Lemma keywords_best_inv text : best_so_far text SUPPLIERS (keywords_best text).
Proof.
  unfold keywords_best.
  apply (keywords_fold_inv text SUPPLIERS [] (None, 0%float, [])).
  - constructor.
  - apply registry_bounded.
  - left. split; [reflexivity | intros e []].
Qed.

Lemma classify_by_keywords_value text :
  match classify_by_keywords text with
  | Some r =>
      exists nm p, best_supplier text nm p /\ 3 * total p <= 10 * hits text p /\
                   r = keywords_result text nm p
  | None =>
      forall nm p, In (nm, p) SUPPLIERS -> 10 * hits text p < 3 * total p
  end.
Proof.
  unfold classify_by_keywords.
  destruct (keywords_best_inv text) as [[Hb Hall] | [l1 [nm [p [l2 [Hl [Hb [Hh [H1 H2]]]]]]]]];
    rewrite Hb.
  - cbn [truthy andb]. intros nm p Hin. pose proof (Hall _ Hin) as H0. cbn [snd] in H0.
    rewrite H0.
    pose proof registry_bounded as Hbd. rewrite Forall_forall in Hbd.
    specialize (Hbd _ Hin). unfold bounded_entry in Hbd. cbn [snd] in Hbd. lia.
  - assert (Hin : In (nm, p) SUPPLIERS) by (rewrite Hl; apply in_or_app; right; now left).
    rewrite (registry_names nm p Hin). cbn [andb].
    pose proof registry_bounded as Hbd. rewrite Forall_forall in Hbd.
    pose proof (Hbd _ Hin) as Hp. unfold bounded_entry in Hp. cbn [snd] in Hp.
    pose proof (hits_le_total text p) as Hle.
    destruct (score_checks_all (hits text p) (total p) (hits text p) (total p))
      as [_ [_ [Hthr _]]]; try lia.
    rewrite Hthr. destruct (3 * total p <=? 10 * hits text p) eqn:E.
    + apply Nat.leb_le in E. exists nm, p. split; [|split; [exact E | reflexivity]].
      exists l1, l2. auto.
    + apply Nat.leb_gt in E. intros nm' p' Hin'.
      pose proof (Hbd _ Hin') as Hp'. unfold bounded_entry in Hp'. cbn [snd] in Hp'.
      assert (Hle' : score_le text p' p).
      { rewrite Hl in Hin'. apply in_app_or in Hin' as [Hi | [Hi | Hi]].
        - specialize (H1 _ Hi). unfold score_lt, score_le in *. cbn [snd] in H1. lia.
        - injection Hi as <- <-. unfold score_le. lia.
        - exact (H2 _ Hi). }
      unfold score_le in Hle'.
      destruct (le_lt_dec (3 * total p') (10 * hits text p')) as [Hc | Hc]; [|exact Hc].
      exfalso.
      assert (3 * total p' * total p <= 10 * hits text p' * total p)
        by (apply Nat.mul_le_mono_r; exact Hc).
      assert (10 * (hits text p' * total p) <= 10 * (hits text p * total p'))
        by (apply Nat.mul_le_mono_l; exact Hle').
      assert (10 * hits text p * total p' < 3 * total p * total p')
        by (apply Nat.mul_lt_mono_pos_r; lia).
      lia.
Qed.

Lemma keywords_result_confidence text nm p :
  In (nm, p) SUPPLIERS -> 1 <= hits text p ->
  (confidence (keywords_result text nm p) <=? 0.9)%float = true /\
  (0.4 <=? confidence (keywords_result text nm p))%float = true /\
  (confidence (keywords_result text nm p) <=? 1)%float = true.
Proof.
  intros Hin Hh.
  pose proof registry_bounded as Hbd. rewrite Forall_forall in Hbd.
  specialize (Hbd _ Hin). unfold bounded_entry in Hbd. cbn [snd] in Hbd.
  pose proof (hits_le_total text p) as Hle.
  destruct (score_checks_all (hits text p) (total p) (hits text p) (total p))
    as [_ [_ [_ [H1 [H2 H3]]]]]; try lia.
  cbn [keywords_result mk_result confidence]. auto.
Qed.
End KeywordResult.
(** ** Floats: adding the hybrid bonus *)

Section FloatFacts.
#[local] Open Scope Z_scope.

Ltac name_powers :=
  repeat match goal with
         | |- context [2 ^ ?e] =>
             lazymatch e with
             | _ => let x := fresh "pw" in set (x := 2 ^ e) in *; clearbody x
             end
         | H : context [2 ^ ?e] |- _ =>
             let x := fresh "pw" in set (x := 2 ^ e) in *; clearbody x
         end.

Lemma digits2_pos_bounds m :
  2 ^ (Zpos (digits2_pos m) - 1) <= Zpos m < 2 ^ Zpos (digits2_pos m).
Proof.
  induction m as [p IH | p IH |]; cbn [digits2_pos].
  - rewrite Pos2Z.inj_succ, (Pos2Z.inj_xI p).
    replace (Z.succ (Zpos (digits2_pos p)) - 1) with (Z.succ (Zpos (digits2_pos p) - 1)) by lia.
    rewrite !Z.pow_succ_r by lia. name_powers. lia.
  - rewrite Pos2Z.inj_succ, (Pos2Z.inj_xO p).
    replace (Z.succ (Zpos (digits2_pos p)) - 1) with (Z.succ (Zpos (digits2_pos p) - 1)) by lia.
    rewrite !Z.pow_succ_r by lia. name_powers. lia.
  - simpl. lia.
Qed.

Lemma digits2_pos_unique m d :
  2 ^ (d - 1) <= Zpos m < 2 ^ d -> Zpos (digits2_pos m) = d.
Proof.
  intros [H1 H2]. pose proof (digits2_pos_bounds m) as [B1 B2].
  assert (Hd : 0 < d).
  { destruct (Z_lt_le_dec 0 d) as [|Hn]; [assumption|].
    destruct (Z.eq_dec d 0) as [->|]; [simpl in H2; lia|].
    rewrite Z.pow_neg_r in H2 by lia. lia. }
  destruct (Z_lt_le_dec (Zpos (digits2_pos m)) d) as [Hlt | Hge].
  - assert (2 ^ Zpos (digits2_pos m) <= 2 ^ (d - 1)) by (apply Z.pow_le_mono_r; lia). lia.
  - destruct (Z.eq_dec (Zpos (digits2_pos m)) d) as [|Hne]; [assumption|].
    assert (2 ^ d <= 2 ^ (Zpos (digits2_pos m) - 1)) by (apply Z.pow_le_mono_r; lia). lia.
Qed.

Lemma shr_1_m r : 0 <= shr_m r -> shr_m (shr_1 r) = shr_m r / 2.
Proof.
  destruct r as [m rb sb]. cbn [shr_m]. intro H. unfold shr_1.
  destruct m as [|q|q]; [reflexivity | | lia].
  destruct q as [p|p|]; cbn [shr_m].
  - rewrite (Pos2Z.inj_xI p). apply Z.div_unique with (r := 1); lia.
  - rewrite (Pos2Z.inj_xO p). apply Z.div_unique with (r := 0); lia.
  - reflexivity.
Qed.

Lemma iter_shr_1_m p : forall r,
  0 <= shr_m r -> shr_m (iter_pos shr_1 p r) = shr_m r / 2 ^ Zpos p.
Proof.
  assert (Hpow : forall q, 0 < 2 ^ Zpos q) by (intro q; apply Z.pow_pos_nonneg; lia).
  induction p as [p IH | p IH |]; intros r H; cbn [iter_pos].
  - assert (H1 : 0 <= shr_m (shr_1 r)).
    { rewrite shr_1_m by assumption. apply Z.div_pos; lia. }
    assert (H2 : 0 <= shr_m (iter_pos shr_1 p (shr_1 r))).
    { rewrite IH by assumption. apply Z.div_pos; [assumption | apply Hpow]. }
    rewrite IH, IH, shr_1_m by assumption.
    rewrite !Zdiv.Zdiv_Zdiv by (pose proof (Hpow p); lia).
    f_equal. rewrite (Pos2Z.inj_xI p).
    replace (2 * Zpos p + 1) with (1 + Zpos p + Zpos p) by lia.
    rewrite !Z.pow_add_r by lia. change (2 ^ 1) with 2. ring.
  - assert (H2 : 0 <= shr_m (iter_pos shr_1 p r)).
    { rewrite IH by assumption. apply Z.div_pos; [assumption | apply Hpow]. }
    rewrite IH, IH by assumption.
    rewrite !Zdiv.Zdiv_Zdiv by (pose proof (Hpow p); lia).
    f_equal. rewrite (Pos2Z.inj_xO p).
    replace (2 * Zpos p) with (Zpos p + Zpos p) by lia.
    rewrite !Z.pow_add_r by lia. ring.
  - rewrite shr_1_m by assumption. reflexivity.
Qed.

Lemma round_nearest_even_bounds mx lx :
  mx <= round_nearest_even mx lx <= mx + 1.
Proof.
  unfold round_nearest_even. destruct lx as [|[]]; try destruct (Z.even mx); lia.
Qed.

(** Rounding a positive integer with more than 53 digits to binary64: the
    exponent grows by the digits dropped (and by one more when the mantissa
    rounds up to a power of two), and the mantissa is at least the
    truncated one. *)
Lemma round_aux_lower (S : positive) (ez : Z) :
  let n := Zpos (digits2_pos S) - 53 in
  0 < n -> -1074 <= ez + n -> ez + n + 1 <= 971 ->
  exists M e'',
    binary_round_aux 53 1024 false (Zpos S) ez loc_Exact = S754_finite false M e'' /\
    ((e'' = ez + n /\ Zpos S / 2 ^ n <= Zpos M) \/ e'' = ez + n + 1).
Proof.
  intros n Hn Hlo Hhi.
  pose proof (digits2_pos_bounds S) as [HS1 HS2].
  assert (Hpn : 0 < 2 ^ n) by (apply Z.pow_pos_nonneg; lia).
  assert (Hq1 : 2 ^ 52 <= Zpos S / 2 ^ n).
  { apply Z.div_le_lower_bound; [exact Hpn|].
    rewrite <- Z.pow_add_r by lia.
    replace (n + 52) with (Zpos (digits2_pos S) - 1) by (unfold n; lia). exact HS1. }
  assert (Hq2 : Zpos S / 2 ^ n < 2 ^ 53).
  { apply Z.div_lt_upper_bound; [exact Hpn|].
    rewrite <- Z.pow_add_r by lia.
    replace (n + 53) with (Zpos (digits2_pos S)) by (unfold n; lia). exact HS2. }
  unfold binary_round_aux, shr_fexp. cbn [Zdigits2 shr_record_of_loc].
  replace (fexp 53 1024 (Zpos (digits2_pos S) + ez) - ez) with n
    by (unfold fexp, emin, n; lia).
  destruct n as [|p|p] eqn:En; try lia.
  cbn [shr].
  set (mrs' := iter_pos shr_1 p {| shr_m := Zpos S; shr_r := false; shr_s := false |}).
  assert (Hm : shr_m mrs' = Zpos S / 2 ^ Zpos p).
  { unfold mrs'. rewrite iter_shr_1_m; cbn [shr_m]; [reflexivity | lia]. }
  pose proof (round_nearest_even_bounds (shr_m mrs') (loc_of_shr_record mrs')) as HM1.
  destruct (round_nearest_even (shr_m mrs') (loc_of_shr_record mrs')) as [|P|P] eqn:EM1;
    rewrite Hm in HM1; try lia.
  change (2 ^ 52) with 4503599627370496 in *.
  change (2 ^ 53) with 9007199254740992 in *.
  cbn [Zdigits2 shr_record_of_loc].
  destruct (Z_lt_le_dec (Zpos P) 9007199254740992) as [HP | HP].
  - assert (Hd : Zpos (digits2_pos P) = 53).
    { apply digits2_pos_unique. change (2 ^ (53 - 1)) with 4503599627370496.
      change (2 ^ 53) with 9007199254740992. lia. }
    rewrite Hd.
    replace (fexp 53 1024 (53 + (ez + Zpos p)) - (ez + Zpos p)) with 0
      by (unfold fexp, emin; lia).
    cbn [shr shr_m].
    replace (ez + Zpos p <=? 1024 - 53) with true by (symmetry; apply Z.leb_le; lia).
    exists P, (ez + Zpos p). split; [reflexivity|]. left. split; [reflexivity | lia].
  - assert (HP' : P = 9007199254740992%positive) by lia. subst P.
    replace (fexp 53 1024 (Zpos (digits2_pos 9007199254740992) + (ez + Zpos p)) - (ez + Zpos p))
      with 1 by (cbn [digits2_pos Pos.succ]; unfold fexp, emin; lia).
    cbn [shr iter_pos shr_1 shr_m].
    replace (ez + Zpos p + 1 <=? 1024 - 53) with true by (symmetry; apply Z.leb_le; lia).
    eexists _, (ez + Zpos p + 1). split; [reflexivity|]. right. reflexivity.
Qed.

Lemma pos_iter_xO m d : Zpos (Pos.iter xO m d) = Zpos m * 2 ^ Zpos d.
Proof.
  induction d as [|d IH] using Pos.peano_ind.
  - cbn [Pos.iter]. rewrite (Pos2Z.inj_xO m). change (2 ^ 1) with 2. lia.
  - rewrite Pos.iter_succ, (Pos2Z.inj_xO (Pos.iter xO m d)), IH, Pos2Z.inj_succ.
    rewrite Z.pow_succ_r by lia. ring.
Qed.

Lemma shl_align_lower mx ex ex' :
  ex' < ex -> Zpos (fst (shl_align mx ex ex')) = Zpos mx * 2 ^ (ex - ex').
Proof.
  intro H. unfold shl_align. destruct (ex' - ex) as [|d|d] eqn:E; try lia.
  cbn [fst]. rewrite pos_iter_xO. f_equal. f_equal. lia.
Qed.

Lemma shl_align_same mx ex ex' : ex <= ex' -> shl_align mx ex ex' = (mx, ex).
Proof.
  intro H. unfold shl_align. destruct (ex' - ex) as [|d|d] eqn:E; try reflexivity. lia.
Qed.

Lemma SFltb_pos m1 e1 m2 e2 :
  SFltb (S754_finite false m1 e1) (S754_finite false m2 e2) = true <-> pos_lt m1 e1 m2 e2.
Proof.
  unfold SFltb, SFcompare, pos_lt. rewrite Pos.compare_cont_spec. cbn [Pos.switch_Eq].
  destruct (Z.compare_spec e1 e2) as [He | He | He].
  - destruct (Pos.compare_spec m1 m2) as [Hm | Hm | Hm]; split; try discriminate;
      try reflexivity; try lia.
  - split; [lia | reflexivity].
  - split; [discriminate | lia].
Qed.

(** Adding 0.1 to a normal number between 1/4 and 2 gives a greater number. *)
Lemma add_tenth_spec m e :
  Zpos (digits2_pos m) = 53 -> -54 <= e <= -52 ->
  exists M e'',
    SFadd 53 1024 (S754_finite false m e) (S754_finite false tenth_mantissa (-56)) =
    S754_finite false M e'' /\ pos_lt m e M e''.
Proof.
  intros Hd He.
  pose proof (digits2_pos_bounds m) as Hm. rewrite Hd in Hm.
  change (2 ^ (53 - 1)) with 4503599627370496 in Hm.
  change (2 ^ 53) with 9007199254740992 in Hm.
  unfold SFadd. replace (Z.min e (-56)) with (-56) by lia.
  cbn [cond_Zopp].
  rewrite (shl_align_same tenth_mantissa (-56) (-56)) by lia. cbn [fst].
  pose proof (shl_align_lower m e (-56) ltac:(lia)) as Ha.
  set (a := fst (shl_align m e (-56))) in *.
  cbn [Z.add binary_normalize].
  set (S := (a + tenth_mantissa)%positive).
  assert (HS : Zpos S = Zpos m * 2 ^ (e + 56) + 7205759403792794).
  { unfold S. rewrite Pos2Z.inj_add, Ha. replace (e - -56) with (e + 56) by lia. reflexivity. }
  assert (Hk : 2 ^ (e + 56) = 4 \/ 2 ^ (e + 56) = 8 \/ 2 ^ (e + 56) = 16).
  { assert (E : e = -54 \/ e = -53 \/ e = -52) by lia.
    destruct E as [-> | [-> | ->]]; auto. }
  pose proof (digits2_pos_bounds S) as [HS1 HS2].
  assert (Hn1 : e + 56 + 53 <= Zpos (digits2_pos S)).
  { destruct (Z_lt_le_dec (Zpos (digits2_pos S)) (e + 56 + 53)) as [Hc|]; [|assumption].
    assert (2 ^ Zpos (digits2_pos S) <= 2 ^ (e + 56 + 52)) by (apply Z.pow_le_mono_r; lia).
    rewrite Z.pow_add_r in H by lia. change (2 ^ 52) with 4503599627370496 in H. nia. }
  assert (Hn2 : Zpos (digits2_pos S) <= e + 56 + 54).
  { destruct (Z_lt_le_dec (e + 56 + 54) (Zpos (digits2_pos S))) as [Hc|]; [|assumption].
    assert (2 ^ (e + 56 + 54) <= 2 ^ (Zpos (digits2_pos S) - 1))
      by (apply Z.pow_le_mono_r; lia).
    rewrite Z.pow_add_r in H by lia. change (2 ^ 54) with 18014398509481984 in H. nia. }
  unfold binary_round.
  rewrite shl_align_same by (unfold fexp, emin; lia).
  destruct (round_aux_lower S (-56)) as [M [e'' [HR Hcases]]]; try lia.
  exists M, e''. split; [exact HR|].
  unfold pos_lt. destruct Hcases as [[He'' HM] | He'']; [|lia].
  destruct (Z.eq_dec (Zpos (digits2_pos S)) (e + 56 + 53)) as [Heq | Hne]; [|lia].
  right. split; [lia|].
  replace (Zpos (digits2_pos S) - 53) with (e + 56) in HM by lia.
  assert (Zpos m + 1 <= Zpos S / 2 ^ (e + 56)); [|lia].
  apply Z.div_le_lower_bound; [lia|]. rewrite HS. nia.
Qed.

Lemma confidence_range_normal x :
  (0.4 <=? x)%float = true -> (x <=? 1)%float = true -> is_normal_pos x.
Proof.
  rewrite !leb_spec. intros H1 H2.
  pose proof (Prim2SF_valid x) as Hv.
  change (Prim2SF 0.4) with (S754_finite false 7205759403792794 (-54)) in H1.
  change (Prim2SF 1) with (S754_finite false 4503599627370496 (-52)) in H2.
  unfold SFleb, SFcompare in H1, H2. unfold is_normal_pos.
  destruct (Prim2SF x) as [[] | [] | | [] m e]; try discriminate.
  unfold valid_binary, bounded, canonical_mantissa in Hv.
  apply andb_true_iff in Hv as [Hc _]. apply Z.eqb_eq in Hc.
  unfold fexp, emin, prec, emax in Hc.
  exists m, e. split; [reflexivity|].
  destruct (Z.compare_spec (-54) e); destruct (Z.compare_spec e (-52));
    try discriminate; lia.
Qed.

Lemma add_tenth_gt x :
  is_normal_pos x ->
  exists m e M e', Prim2SF x = S754_finite false m e /\
                   Prim2SF (x + 0.1) = S754_finite false M e' /\ pos_lt m e M e'.
Proof.
  intros [m [e [Hx [Hd He]]]].
  destruct (add_tenth_spec m e Hd He) as [M [e' [Hadd Hlt]]].
  exists m, e, M, e'. split; [exact Hx|]. split; [|exact Hlt].
  rewrite add_spec, Hx. exact Hadd.
Qed.

(** The hybrid confidence [max(t, k) + 0.1] is above both [t] and [k]. *)
Lemma hybrid_confidence_greater t k :
  is_normal_pos t -> is_normal_pos k ->
  (t <? py_max_float t k + 0.1)%float = true /\
  (k <? py_max_float t k + 0.1)%float = true.
Proof.
  intros Ht Hk.
  destruct (add_tenth_gt t Ht) as [mt [et [Mt [et' [Et [Et' Hlt]]]]]].
  destruct (add_tenth_gt k Hk) as [mk [ek [Mk [ek' [Ek [Ek' Hlk]]]]]].
  unfold py_max_float. destruct (t <? k)%float eqn:Etk.
  - rewrite !ltb_spec, Et, Ek, Ek'. rewrite ltb_spec, Et, Ek in Etk.
    rewrite !SFltb_pos. apply SFltb_pos in Etk. unfold pos_lt in *. lia.
  - rewrite !ltb_spec, Et, Ek, Et'. rewrite ltb_spec, Et, Ek in Etk.
    rewrite !SFltb_pos. split; [exact Hlt|].
    assert (Hn : ~ pos_lt mt et mk ek) by (rewrite <- SFltb_pos; congruence).
    unfold pos_lt in *. lia.
Qed.
End FloatFacts.

(** ** A keyword pattern with [.*] *)

Section Phrase.
Context {db : UnicodeDB}.

Lemma lits_sem_ignorecase w : forall st rest',
  forallb latin1 w = true ->
  c_rest (m_cur st) = w ++ rest' ->
  sem true (lits w) st (advance_by w rest' st).
Proof.
  induction w as [|c w IH]; intros st rest' Hl Hr; cbn [lits fold_right advance_by].
  - constructor.
  - fold (lits w). cbn [forallb] in Hl. apply andb_true_iff in Hl as [Hc Hl].
    apply sem_seq_. exists (advance c (w ++ rest') st). split.
    + apply sem_char; [exact Hr|].
      unfold lit_match, char_ieq. rewrite Hc. cbn [andb]. apply char_eqb_eq. reflexivity.
    + apply IH; [exact Hl | reflexivity].
Qed.

Lemma advance_by_position w : forall rest' st,
  c_pos (m_cur (advance_by w rest' st)) = c_pos (m_cur st) + length w /\
  (c_rest (m_cur st) = w ++ rest' -> c_rest (m_cur (advance_by w rest' st)) = rest').
Proof.
  induction w as [|c w IH]; intros rest' st; cbn [advance_by length app].
  - split; [lia | auto].
  - destruct (IH rest' (advance c (w ++ rest') st)) as [Hp Hr].
    cbn [advance m_cur c_pos c_rest] in Hp, Hr. split; [lia | auto].
Qed.

(** [.*] can take any characters but newlines. *)
Lemma any_star_sem ignorecase w : forall st rest',
  forallb (fun t => negb (char_eqb t 10%N)) w = true ->
  c_rest (m_cur st) = w ++ rest' ->
  sem ignorecase (RRep 0 None RAny) st (advance_by w rest' st).
Proof.
  induction w as [|c w IH]; intros st rest' Hl Hr; cbn [advance_by].
  - constructor.
  - cbn [forallb] in Hl. apply andb_true_iff in Hl as [Hc Hl].
    apply (sem_rep_more ignorecase 0 None RAny st (advance c (w ++ rest') st)).
    + discriminate.
    + apply sem_any; [exact Hr | now apply negb_true_iff].
    + cbn [advance m_cur c_pos]. lia.
    + apply IH; [exact Hl | reflexivity].
Qed.

(** A text with the phrase "guia de devolução" matches the first keyword of
    the return-guide variant. *)
Lemma guia_devolucao_found text :
  contains (py "guia de devolução") text = true ->
  re_found (py "guia.*devolu") text true = true.
Proof.
  intro Hc. apply contains_spec in Hc as [a [b ->]].
  unfold re_found, re_search.
  set (R := fold_right (fun c r => seq_ (RChar c) r)
              (RSeq (RRep 0 None RAny) (lits (py "devolu"))) (py "guia")).
  change (re_compile (py "guia.*devolu")) with (Some (R, 0)).
  destruct (reaches_app a None 0 (py "guia de devolução" ++ b)) as [prev' Hreach].
  apply (search_from_found true R 0) in Hreach.
  - destruct (search_from _ _ _ _ _ _); [reflexivity | contradiction].
  - unfold match_here. set (st0 := {| m_cur := _; m_caps := [] |}).
    eapply rmatch_complete; [|discriminate].
    change (py "guia de devolução" ++ b)
      with (py "g" ++ py "u" ++ py "i" ++ py "a" ++ py " de " ++ py "devolu" ++ (py "ção" ++ b))
      in st0.
    unfold R. cbn [fold_right py utf8_decode bytes_of_string].
    assert (Hlit : forall c rest' st, c_rest (m_cur st) = c :: rest' -> latin1 c = true ->
                   sem true (RChar c) st (advance c rest' st)).
    { intros c rest' st Hr Hl. apply sem_char; [exact Hr|].
      unfold lit_match, char_ieq. rewrite Hl. cbn [andb]. apply char_eqb_eq. reflexivity. }
    repeat (apply sem_seq_; eexists; split; [apply Hlit; reflexivity|]).
    eapply sem_seq.
    + apply (any_star_sem true (py " de ")); reflexivity.
    + apply lits_sem_ignorecase; reflexivity.
Qed.
End Phrase.

(** ** The methods of [classify] *)

Section ClassifyFacts.
Context {db : UnicodeDB} {Path Image : Type} {cap : Capabilities Path Image}.

Lemma no_tax_id_form_spec text :
  no_tax_id_form text = true <->
  forall nm p form,
    In (nm, p) SUPPLIERS -> 9 <= length (nif p) -> In form (nif_patterns (nif p)) ->
    contains form text = false.
Proof.
  unfold no_tax_id_form. rewrite forallb_forall. split.
  - intros H nm p form Hin Hlen Hf. specialize (H _ Hin). cbn [snd] in H.
    apply orb_true_iff in H as [H | H]; [apply Nat.ltb_lt in H; lia|].
    rewrite forallb_forall in H. now apply negb_true_iff, H.
  - intros H [nm p] Hin. cbn [snd].
    destruct (length (nif p) <? 9) eqn:E; [reflexivity|]. apply Nat.ltb_ge in E.
    cbn [orb]. apply forallb_forall. intros form Hf. apply negb_true_iff. eauto.
Qed.

Lemma no_other_tax_id_form_spec n text :
  no_other_tax_id_form n text = true ->
  forall nm p form,
    In (nm, p) SUPPLIERS -> nif p <> n -> 9 <= length (nif p) ->
    In form (nif_patterns (nif p)) -> contains form text = false.
Proof.
  unfold no_other_tax_id_form. rewrite forallb_forall.
  intros H nm p form Hin Hn Hlen Hf. specialize (H _ Hin). cbn [snd] in H.
  apply orb_true_iff in H as [H | H].
  - apply orb_true_iff in H as [H | H].
    + apply str_eqb_eq in H. contradiction.
    + apply Nat.ltb_lt in H. lia.
  - rewrite forallb_forall in H. now apply negb_true_iff, H.
Qed.

(** Without a surface form of a tax ID in the text there is no tax-ID match. *)
Lemma classify_by_nif_none text :
  no_tax_id_form text = true -> classify_by_nif text = None.
Proof.
  intro H. rewrite no_tax_id_form_spec in H.
  unfold classify_by_nif. apply first_return_none. intros [nm p] Hin.
  apply nif_supplier_none; [exact Hin|]. intros Hlen form Hf. eauto.
Qed.

(** The date extraction of [classify] raises only what the OCR of the header
    raises. *)
Lemma document_date_blame (image : Image) text e :
  document_date image text = inl e -> ocr_header image = inl e.
Proof.
  unfold document_date, extract_header_text.
  destruct (extract_invoice_date_total text) as [o ->]. cbn [bind ret].
  destruct (truthy o); [discriminate|].
  destruct (ocr_header image) as [e' | h]; cbn [bind ret]; [congruence|].
  destruct (extract_invoice_date_total (lower h)) as [o' ->]. discriminate.
Qed.

Lemma document_date_total (image : Image) text h :
  ocr_header image = inr h -> exists date, document_date image text = inr date.
Proof.
  intro Hh. destruct (document_date image text) as [e | date] eqn:E; [|eauto].
  apply document_date_blame in E. congruence.
Qed.

Lemma foldM_template_blame (image : Image) l b e :
  foldM (template_step image) l b = inl e ->
  exists nm, In nm l /\ header_ssim image nm = inl e.
Proof.
  revert b. induction l as [|nm l IH]; intros b H; cbn [foldM] in H; [discriminate|].
  unfold template_step in H at 1.
  destruct (header_ssim image nm) as [e' | r] eqn:E; cbn [bind ret] in H.
  - exists nm. split; [left; reflexivity | congruence].
  - assert (H' : exists b', foldM (template_step image) l b' = inl e).
    { destruct r; cbn [bind ret] in H; eauto. }
    destruct H' as [b' H']. destruct (IH b' H') as [nm' [Hin Hs]].
    exists nm'. split; [right; exact Hin | exact Hs].
Qed.

(** [classify_by_template] raises only what the similarity with a loaded
    template raises. *)
Lemma classify_by_template_blame templates (image : Image) e :
  classify_by_template templates image = inl e ->
  exists nm, In nm templates /\ header_ssim image nm = inl e.
Proof.
  unfold classify_by_template. destruct templates as [|nm0 l]; [discriminate|].
  destruct (foldM (template_step image) (nm0 :: l) (None, 0%float)) as [e' | [bm bs]] eqn:E;
    cbn [bind ret].
  - intros [= ->]. exact (foldM_template_blame image _ _ e E).
  - destruct (truthy bm && (0.4 <=? bs)%float); [destruct bm|]; discriminate.
Qed.

Lemma classify_by_template_result templates (image : Image) t :
  classify_by_template templates image = inr (Some t) ->
  method t = py "template" /\ (0.4 <=? confidence t)%float = true /\
  details t = [(py "similarity_score", VFloat (confidence t))].
Proof.
  unfold classify_by_template. destruct templates as [|nm l]; [discriminate|].
  destruct (foldM _ _ _) as [e | [bm bs]]; cbn [bind ret]; [discriminate|].
  destruct (truthy bm && (0.4 <=? bs)%float) eqn:E; [|discriminate].
  apply andb_true_iff in E as [_ E].
  destruct bm; [|discriminate]. intros [= <-]. auto.
Qed.

Lemma classify_by_keywords_result text k :
  classify_by_keywords text = Some k ->
  method k = py "keywords" /\ (0.4 <=? confidence k)%float = true /\
  (confidence k <=? 1)%float = true /\ (confidence k <=? 0.9)%float = true.
Proof.
  intro H. pose proof (classify_by_keywords_value text) as Hv. rewrite H in Hv.
  destruct Hv as [nm [p [[l1 [l2 [Hl [Hh _]]]] [_ ->]]]].
  assert (Hin : In (nm, p) SUPPLIERS) by (rewrite Hl; apply in_or_app; right; now left).
  destruct (keywords_result_confidence text nm p Hin Hh) as [H1 [H2 H3]]. auto.
Qed.

(** [classify] on a document that rasterizes to [image], when the OCR reads
    [text] and the date extraction answers [date]. *)
Lemma classify_value templates (path : Path) (image : Image) text date :
  pdf_to_image path = inr image -> extract_text_ocr image = inr text ->
  document_date image text = inr date ->
  classify templates path = classify_text templates image text date.
Proof.
  intros Hr Ht Hd. unfold classify. rewrite Hr, Ht. cbn [bind]. now rewrite Hd.
Qed.

Lemma classify_text_nif templates (image : Image) text date r :
  classify_by_nif text = Some r ->
  classify_text templates image text date = inr (attach r date text).
Proof.
  intro H. unfold classify_text. rewrite H.
  destruct (classify_by_nif_result text r H) as [-> _]. reflexivity.
Qed.

Lemma classify_text_no_nif templates (image : Image) text date :
  classify_by_nif text = None ->
  classify_text templates image text date =
  bind (classify_by_template templates image)
       (fun t => ret (combine t (classify_by_keywords text) date text)).
Proof. intro H. unfold classify_text. now rewrite H. Qed.

(** The method of a result of [classify_text] is not [error]. *)
Lemma classify_text_method templates (image : Image) text date r :
  classify_text templates image text date = inr r -> method r <> py "error".
Proof.
  assert (Hne : forall s, str_eqb s (py "error") = false -> s <> py "error").
  { intros s E ->. rewrite str_eqb_refl in E. discriminate. }
  destruct (classify_by_nif text) as [r0|] eqn:Hnif.
  - rewrite (classify_text_nif templates image _ date r0 Hnif). intros [= <-].
    destruct (classify_by_nif_result _ r0 Hnif) as [_ Hmeth]. cbn [attach method].
    rewrite Hmeth. now apply Hne.
  - rewrite (classify_text_no_nif templates image _ date Hnif).
    destruct (classify_by_template templates image) as [e | t] eqn:Ht; cbn [bind ret];
      [discriminate|].
    intros [= <-]. unfold combine.
    destruct t as [t|];
      destruct (classify_by_keywords text) as [k|] eqn:Hk;
      try (destruct (classify_by_template_result templates image t Ht) as [Hmt _]);
      try (destruct (classify_by_keywords_result _ k Hk) as [Hmk _]);
      repeat match goal with |- context [if ?c then _ else _] => destruct c end;
      cbn [attach method]; try rewrite Hmt; try rewrite Hmk; now apply Hne.
Qed.

(** [classify] raises only what an OCR call or a similarity raises. *)
Lemma classify_blame templates (path : Path) e :
  classify templates path = inl e ->
  exists image,
    pdf_to_image path = inr image /\
    (ocr_page image = inl e \/ ocr_header image = inl e \/
     exists nm, In nm templates /\ header_ssim image nm = inl e).
Proof.
  unfold classify. destruct (pdf_to_image path) as [msg | image]; [discriminate|].
  intro H. exists image. split; [reflexivity|].
  unfold extract_text_ocr in H.
  destruct (ocr_page image) as [e' | raw]; cbn [bind ret] in H; [left; congruence|].
  destruct (document_date image (lower raw)) as [e' | date] eqn:Hd; cbn [bind ret] in H.
  - right. left. apply document_date_blame in Hd. congruence.
  - right. right. unfold classify_text in H.
    destruct (match classify_by_nif (lower raw) with
              | Some r => if (0.9 <=? confidence r)%float then Some r else None
              | None => None
              end); [discriminate|].
    destruct (classify_by_template templates image) as [e' | t] eqn:Ht; cbn [bind ret] in H;
      [|discriminate].
    injection H as <-. exact (classify_by_template_blame templates image e' Ht).
Qed.

Lemma is_yyyymmdd_shape d :
  is_yyyymmdd d -> length d = 8 /\ forallb latin1_isdigit d = true.
Proof.
  intros [y [m [dd [_ ->]]]]. split; [reflexivity|].
  unfold yyyymmdd. cbn [map forallb].
  assert (H : forall n, latin1_isdigit (digit_char (n mod 10)) = true).
  { intro n. pose proof (Z.mod_pos_bound n 10 ltac:(lia)) as Hb.
    unfold latin1_isdigit, digit_char. apply andb_true_iff. split; apply N.leb_le; lia. }
  now rewrite !H.
Qed.
End ClassifyFacts.

(** * The specification, statement by statement *)

(** C1. Tax-ID short circuit.  When a surface form (plain, grouped by three,
    [pt]-prefixed with or without a space) of a registered tax ID occurs in
    the OCR text of a document that rasterizes, [classify_by_nif] returns a
    result with method [nif] and confidence exactly 0.95, and [classify]
    returns that result, with the extracted date and the text attached,
    whatever templates are loaded and whatever the text says otherwise:
    neither the template match nor the keyword match enters the result. *)
Theorem tax_id_match_short_circuits
    {db : UnicodeDB} {Path Image : Type} {cap : Capabilities Path Image}
    (path : Path) (image : Image) (text : str) (date : option str)
    (nm : str) (p : SupplierProfile) (form : str) :
  pdf_to_image path = inr image ->
  extract_text_ocr image = inr text ->
  document_date image text = inr date ->
  In (nm, p) SUPPLIERS -> 9 <= length (nif p) -> In form (nif_patterns (nif p)) ->
  contains form text = true ->
  exists r,
    classify_by_nif text = Some r /\
    confidence r = 0.95%float /\ method r = py "nif" /\
    forall templates, classify templates path = inr (attach r date text).
Proof.
  intros Hraster Htext Hdate Hin Hlen Hform Hc.
  destruct (classify_by_nif_found nm p _ form Hin Hlen Hform Hc) as [r Hr].
  destruct (classify_by_nif_result _ r Hr) as [Hconf Hmeth].
  exists r. repeat split; try assumption.
  intro templates. rewrite (classify_value templates path image text date Hraster Htext Hdate).
  exact (classify_text_nif templates image _ date r Hr).
Qed.

Lemma tax_id_match_short_circuits_witness :
  exists r,
    @classify_by_nif latin1_db (py "fatura pt 501496912 novadis alfarrobeira") = Some r /\
    confidence r = 0.95%float /\ method r = py "nif" /\
    forall templates,
      @classify latin1_db unit unit
        (fixed_capabilities (py "Fatura PT 501496912 Novadis Alfarrobeira") []
           (fun _ => Some 0.99%float))
        templates tt
      = inr (attach r None (py "fatura pt 501496912 novadis alfarrobeira")).
Proof.
  apply (@tax_id_match_short_circuits latin1_db unit unit
           (fixed_capabilities (py "Fatura PT 501496912 Novadis Alfarrobeira") []
              (fun _ => Some 0.99%float))
           tt tt (py "fatura pt 501496912 novadis alfarrobeira") None (py "soares")
           (profile "soares" "Garrafeira Soares" "501496912"
              [py "soares"; py "garrafeira"; py "wine.*spirits"; py "40.*anos";
               py "garrafeirasoares.pt"] (0, 0, 300, 150)%Z)
           (py "pt 501496912")).
  - reflexivity.
  - vm_compute. reflexivity.
  - vm_compute. reflexivity.
  - right. left. reflexivity.
  - vm_compute. lia.
  - right. right. right. left. reflexivity.
  - reflexivity.
Defined.

(** C2. Shared tax ID.  For a text with a surface form of the Teófilo tax ID
    500099871: when it matches a return-guide pattern (for one, when it
    contains the phrase "guia de devolução") the classification is
    [teofilo_gd]; when it matches none of the patterns of [teofilo_gd] and
    [teofilo_nc] it is the default [teofilo]; in both cases with method [nif]
    and confidence 0.95.  In the special-case list of this tax ID the entry
    without keywords is the last one, and the only one. *)
Theorem shared_tax_id_variants {db : UnicodeDB} (text form : str) :
  In form (nif_patterns (py "500099871")) -> contains form text = true ->
  ((exists kw, In kw [py "guia.*devolu"; py "produto.*reclamado"; py "produto.*devolvido"] /\
               re_found kw text true = true) \/
   contains (py "guia de devolução") text = true ->
   classify_by_nif text =
   Some (mk_result (py "teofilo_gd") 0.95%float (py "nif")
           [(py "matched_nif", VStr (py "500099871"));
            (py "special_type", VStr (py "teofilo_gd"))])) /\
  ((forall kw, In kw [py "guia.*devolu"; py "produto.*reclamado"; py "produto.*devolvido";
                      py "nota.*cr[ée]dito"; py "c\s*caau"] ->
               re_found kw text true = false) ->
   classify_by_nif text =
   Some (mk_result (py "teofilo") 0.95%float (py "nif")
           [(py "matched_nif", VStr (py "500099871"))])) /\
  (exists variants,
      dict_get SPECIAL_CASES (py "500099871") = Some variants /\
      map fst variants = [py "teofilo_gd"; py "teofilo_nc"; py "teofilo"] /\
      forall i nm kws, nth_error variants i = Some (nm, kws) ->
                       (kws = [] <-> i = length variants - 1)).
Proof.
  intros Hform Hc.
  assert (Hex : existsb (fun f => contains f text) (nif_patterns (py "500099871")) = true).
  { apply existsb_exists. now exists form. }
  pose proof (classify_by_nif_teofilo text Hex) as Hnif.
  split; [|split].
  - intro Hgd.
    assert (Hkw : existsb (fun kw => re_found kw text true)
                    [py "guia.*devolu"; py "produto.*reclamado"; py "produto.*devolvido"]
                  = true).
    { apply existsb_exists. destruct Hgd as [[kw [Hin Hkw]] | Hphrase].
      - exists kw. split; assumption.
      - exists (py "guia.*devolu"). split; [left; reflexivity|].
        apply guia_devolucao_found. exact Hphrase. }
    rewrite Hnif. cbn [first_return special_case]. now rewrite Hkw.
  - intro Hnone. rewrite Hnif. cbn [first_return special_case].
    replace (existsb (fun kw => re_found kw text true)
               [py "guia.*devolu"; py "produto.*reclamado"; py "produto.*devolvido"])
      with false.
    + replace (existsb (fun kw => re_found kw text true) [py "nota.*cr[ée]dito"; py "c\s*caau"])
        with false; [reflexivity|].
      symmetry. apply not_true_is_false. intro E.
      apply existsb_exists in E as [kw [Hin Hkw]].
      rewrite Hnone in Hkw; [discriminate|].
      do 3 right. exact Hin.
    + symmetry. apply not_true_is_false. intro E.
      apply existsb_exists in E as [kw [Hin Hkw]].
      rewrite Hnone in Hkw; [discriminate|].
      destruct Hin as [Hin | [Hin | [Hin | []]]];
        [left | right; left | right; right; left]; exact Hin.
  - eexists. split; [reflexivity|]. split; [reflexivity|].
    intros i nm kws Hi. cbn [length Nat.sub].
    destruct i as [|[|[|i]]]; cbn [nth_error] in Hi.
    + injection Hi as <- <-. split; [discriminate | lia].
    + injection Hi as <- <-. split; [discriminate | lia].
    + injection Hi as <- <-. split; reflexivity.
    + destruct i; discriminate.
Qed.

Lemma shared_tax_id_variants_witness :
  @classify_by_nif latin1_db (py "nif 500 099 871 guia de devolução n. 12") =
    Some (mk_result (py "teofilo_gd") 0.95%float (py "nif")
            [(py "matched_nif", VStr (py "500099871"));
             (py "special_type", VStr (py "teofilo_gd"))]) /\
  @classify_by_nif latin1_db (py "fatura pt500099871 messines") =
    Some (mk_result (py "teofilo") 0.95%float (py "nif")
            [(py "matched_nif", VStr (py "500099871"))]).
Proof.
  split.
  - apply (@shared_tax_id_variants latin1_db
             (py "nif 500 099 871 guia de devolução n. 12") (py "500 099 871")).
    + right. left. reflexivity.
    + reflexivity.
    + right. reflexivity.
  - apply (@shared_tax_id_variants latin1_db
             (py "fatura pt500099871 messines") (py "pt500099871")).
    + right. right. left. reflexivity.
    + reflexivity.
    + intros kw Hin. simpl in Hin.
      repeat (destruct Hin as [<- | Hin]; [reflexivity|]). contradiction.
Defined.

(** C3. Hybrid fusion.  When the template match and the keyword match both
    return a result and name the same supplier, [classify] returns that
    supplier with method [hybrid] and the confidence
    [max(template, keywords) + 0.1], computed in binary64 and not clamped,
    with the two sub-results' details under the keys [template] and
    [keywords].  For a similarity score of at most 1 this confidence is
    strictly greater than both confidences; and it can exceed 1.0. *)
Theorem hybrid_confidence
    {db : UnicodeDB} {Path Image : Type} {cap : Capabilities Path Image}
    (templates : list str) (path : Path) (image : Image)
    (text : str) (date : option str) (t k : ClassificationResult) :
  pdf_to_image path = inr image ->
  extract_text_ocr image = inr text ->
  document_date image text = inr date ->
  classify_by_nif text = None ->
  classify_by_template templates image = inr (Some t) ->
  classify_by_keywords text = Some k ->
  supplier t = supplier k ->
  classify templates path =
    inr {| supplier := supplier t;
           confidence := (py_max_float (confidence t) (confidence k) + 0.1)%float;
           method := py "hybrid";
           details := [(py "template", VDict (details t));
                       (py "keywords", VDict (details k))];
           invoice_date := date;
           ocr_text := text |} /\
  ((confidence t <=? 1)%float = true ->
   (confidence t <? py_max_float (confidence t) (confidence k) + 0.1)%float = true /\
   (confidence k <? py_max_float (confidence t) (confidence k) + 0.1)%float = true) /\
  (exists t' k' date' text',
      supplier t' = supplier k' /\
      (confidence t' <=? 1)%float = true /\ (confidence k' <=? 1)%float = true /\
      (1 <? confidence (combine (Some t') (Some k') date' text'))%float = true).
Proof.
  intros Hraster Htext Hdate Hnif Ht Hk Hs. split; [|split].
  - rewrite (classify_value templates path image text date Hraster Htext Hdate).
    rewrite (classify_text_no_nif templates image _ date Hnif), Ht, Hk.
    cbn [bind ret]. unfold combine. rewrite Hs, str_eqb_refl. reflexivity.
  - intro Hle.
    destruct (classify_by_template_result templates image t Ht) as [_ [Hge _]].
    destruct (classify_by_keywords_result _ k Hk) as [_ [Hk1 [Hk2 _]]].
    apply hybrid_confidence_greater; apply confidence_range_normal; assumption.
  - exists (mk_result (py "novadis") 0.95%float (py "template") []),
           (mk_result (py "novadis") 0.7%float (py "keywords") []), None, [].
    repeat split.
Qed.

Lemma hybrid_confidence_witness :
  exists r,
    @classify latin1_db unit unit
      (fixed_capabilities (py "novadis alfarrobeira") []
         (fun nm => if str_eqb nm (py "novadis") then Some 0.95%float else None))
      [py "novadis"] tt = inr r /\
    supplier r = py "novadis" /\ method r = py "hybrid" /\
    confidence r = (0.95 + 0.1)%float /\ (1 <? confidence r)%float = true.
Proof.
  destruct (@hybrid_confidence latin1_db unit unit
              (fixed_capabilities (py "novadis alfarrobeira") []
                 (fun nm => if str_eqb nm (py "novadis") then Some 0.95%float else None))
              [py "novadis"] tt tt (py "novadis alfarrobeira") None
              (mk_result (py "novadis") 0.95%float (py "template")
                 [(py "similarity_score", VFloat 0.95)])
              (mk_result (py "novadis") 0.7%float (py "keywords")
                 [(py "matched_keywords", VStrList [py "novadis"; py "alfarrobeira"]);
                  (py "score", VFloat 0.5)])
              eq_refl eq_refl eq_refl eq_refl eq_refl eq_refl eq_refl) as [Hc _].
  eexists. split; [exact Hc|]. repeat split.
Defined.

(** C4 does not hold as stated: the first pass looks, for each grammar, only
    at the leftmost match in the 30 characters after the label.  In
    "data de emissão: 31/02/2025 10/03/2025 x 01/01/2020" the window after
    the label contains 10/03/2025, which normalizes to 20250310, but the
    leftmost match of its grammar is 31/02/2025, which does not normalize:
    the first pass finds nothing and the second pass returns 20200101. *)
Lemma priority_window_later_date_ignored :
  exists label km pf m,
    In label (@priority_keywords) /\
    @re_search latin1_db label
      (@lower latin1_db (py "data de emissão: 31/02/2025 10/03/2025 x 01/01/2020")) false
      = Some km /\
    In pf date_patterns /\
    In m (@re_finditer latin1_db (fst pf)
            (slice (@lower latin1_db
                      (py "data de emissão: 31/02/2025 10/03/2025 x 01/01/2020"))
                   (m_end km) (m_end km + 30))) /\
    @_normalize_date latin1_db m (snd pf) = inr (Some (py "20250310")) /\
    @priority_pass latin1_db
      (@lower latin1_db (py "data de emissão: 31/02/2025 10/03/2025 x 01/01/2020"))
      = inr None /\
    @extract_invoice_date latin1_db
      (py "data de emissão: 31/02/2025 10/03/2025 x 01/01/2020")
      = inr (Some (py "20200101")).
Proof.
  eexists (py "data\s*(?:de\s*)?emiss[ãa]o\s*[:\s]*"), _,
          (py "(\d{1,2})/(\d{1,2})/(\d{4})", py "ambiguous"), _.
  split; [left; reflexivity|].
  split; [vm_compute; reflexivity|].
  split; [do 3 right; left; reflexivity|].
  split; [vm_compute; right; left; reflexivity|].
  split; [vm_compute; reflexivity|].
  split; vm_compute; reflexivity.
Qed.

(** C4, amended.  When a priority label occurs in the text and, in the 30
    characters after its leftmost occurrence, the leftmost match of one of
    the six grammars normalizes to a date, that date is one of the dates of
    the first pass and [extract_invoice_date] returns the first of them, in
    the order of the labels and then of the grammars; the second pass is not
    consulted, whatever dates it would find. *)
Theorem priority_pass_wins {db : UnicodeDB}
    (text label : str) (km : Match) (pf : str * str) (m : Match) (d : str) :
  In label priority_keywords ->
  re_search label (lower text) false = Some km ->
  In pf date_patterns ->
  re_search (fst pf) (slice (lower text) (m_end km) (m_end km + 30)) false = Some m ->
  _normalize_date m (snd pf) = inr (Some d) ->
  In d (priority_dates (lower text)) /\
  exists d',
    hd_error (priority_dates (lower text)) = Some d' /\
    priority_pass (lower text) = inr (Some d') /\
    extract_invoice_date text = inr (Some d').
Proof.
  intros Hlabel Hkm Hpf Hm Hd.
  assert (Hin : In d (priority_dates (lower text))).
  { unfold priority_dates. apply in_flat_map. exists label. split; [exact Hlabel|].
    apply in_flat_map. exists (slice (lower text) (m_end km) (m_end km + 30)).
    split; [unfold label_windows; rewrite Hkm; left; reflexivity|].
    apply in_flat_map. exists pf. split; [exact Hpf|].
    unfold leftmost_date. rewrite Hm. unfold date_of. rewrite Hd. left. reflexivity. }
  split; [exact Hin|].
  rewrite priority_pass_value, extract_invoice_date_value.
  destruct (priority_dates (lower text)) as [|d' ds]; [contradiction|].
  exists d'. repeat split.
Qed.

Lemma priority_pass_wins_witness :
  In (py "20250210")
     (@priority_dates latin1_db
        (@lower latin1_db (py "01/01/2020 data de emissão: 10/02/2025"))) /\
  exists d',
    hd_error (@priority_dates latin1_db
                (@lower latin1_db (py "01/01/2020 data de emissão: 10/02/2025"))) = Some d' /\
    @priority_pass latin1_db
      (@lower latin1_db (py "01/01/2020 data de emissão: 10/02/2025")) = inr (Some d') /\
    @extract_invoice_date latin1_db (py "01/01/2020 data de emissão: 10/02/2025")
      = inr (Some d').
Proof.
  eapply (@priority_pass_wins latin1_db (py "01/01/2020 data de emissão: 10/02/2025")
            (py "data\s*(?:de\s*)?emiss[ãa]o\s*[:\s]*") _
            (py "(\d{1,2})/(\d{1,2})/(\d{4})", py "ambiguous") _ (py "20250210")).
  - left. reflexivity.
  - vm_compute. reflexivity.
  - do 3 right. left. reflexivity.
  - vm_compute. reflexivity.
  - vm_compute. reflexivity.
Defined.

(** C5. The second pass.  Cut the lowered text at a match of a grammar,
    [before ++ context ++ rest], so that the match starts where [rest] starts
    and [context] is the 50 characters immediately before it (all the
    characters before it when they are fewer than 50).  When "vencimento",
    "pagamento" or "prazo" occurs in [context] the match is dropped: it adds
    nothing to the candidate set.  When none of them occurs in [context] the
    match adds the date it normalizes to, if any.  The candidate set the code
    builds is [surviving_dates].  When the priority pass finds nothing and the
    candidate set is not empty, [extract_invoice_date] returns a member of
    the set that no member is smaller than, in the order of strings. *)
Theorem earliest_non_due_date {db : UnicodeDB} (text : str) :
  (forall pf m before context rest kw a b,
     In pf date_patterns -> In m (re_finditer (fst pf) (lower text)) ->
     lower text = before ++ context ++ rest ->
     m_start m = length before + length context ->
     length context = 50 \/ (before = [] /\ length context < 50) ->
     In kw [py "vencimento"; py "pagamento"; py "prazo"] ->
     context = a ++ kw ++ b ->
     near_avoid_keyword (lower text) m = true /\
     candidate (lower text) (snd pf) m = inr []) /\
  (forall pf m before context rest,
     In pf date_patterns -> In m (re_finditer (fst pf) (lower text)) ->
     lower text = before ++ context ++ rest ->
     m_start m = length before + length context ->
     length context = 50 \/ (before = [] /\ length context < 50) ->
     (forall kw a b, In kw [py "vencimento"; py "pagamento"; py "prazo"] ->
                     context <> a ++ kw ++ b) ->
     near_avoid_keyword (lower text) m = false /\
     candidate (lower text) (snd pf) m = inr (date_of m (snd pf))) /\
  (forall m, is_due_date (lower text) m = near_avoid_keyword (lower text) m) /\
  all_dates (lower text) = inr (surviving_dates (lower text)) /\
  (priority_pass (lower text) = inr None ->
   surviving_dates (lower text) <> [] ->
   exists d,
     extract_invoice_date text = inr (Some d) /\
     In d (surviving_dates (lower text)) /\
     forall d', In d' (surviving_dates (lower text)) -> str_le d d').
Proof.
  split.
  { intros pf m before context rest kw a b Hpf Hm Ht Hs Hlen Hkw Hc.
    assert (Hp : preceding 50 (lower text) (m_start m) = context)
      by (rewrite Ht; apply preceding_split; assumption).
    assert (Ha : near_avoid_keyword (lower text) m = true).
    { apply near_avoid_keyword_spec. exists kw, a, b.
      split; [exact Hkw | now rewrite Hp]. }
    split; [exact Ha|].
    rewrite (candidate_value _ pf m Hpf Hm), Ha. reflexivity. }
  split.
  { intros pf m before context rest Hpf Hm Ht Hs Hlen Hno.
    assert (Hp : preceding 50 (lower text) (m_start m) = context)
      by (rewrite Ht; apply preceding_split; assumption).
    assert (Ha : near_avoid_keyword (lower text) m = false).
    { destruct (near_avoid_keyword (lower text) m) eqn:E; [|reflexivity].
      apply near_avoid_keyword_spec in E as [kw [a [b [Hkw Hab]]]].
      rewrite Hp in Hab. destruct (Hno kw a b Hkw Hab). }
    split; [exact Ha|].
    rewrite (candidate_value _ pf m Hpf Hm), Ha. reflexivity. }
  split; [exact (is_due_date_value (lower text))|].
  split; [exact (all_dates_value (lower text))|].
  intros Hp Hs. unfold extract_invoice_date. rewrite Hp. cbn [bind ret].
  rewrite all_dates_value. cbn [bind ret].
  destruct (surviving_dates (lower text)) as [|d0 l] eqn:E; [contradiction|].
  destruct (py_min (d0 :: l)) as [d|] eqn:Hmin; [|discriminate].
  exists d. split; [reflexivity|]. exact (py_min_spec _ d Hmin).
Qed.

Lemma earliest_non_due_date_witness :
  (exists m,
     In m (@re_finditer latin1_db (py "(\d{1,2})/(\d{1,2})/(\d{4})")
             (@lower latin1_db due_date_sample)) /\
     m_start m = 11 /\
     @_normalize_date latin1_db m (py "ambiguous") = inr (Some (py "20240101")) /\
     near_avoid_keyword (@lower latin1_db due_date_sample) m = true /\
     @candidate latin1_db (@lower latin1_db due_date_sample) (py "ambiguous") m = inr []) /\
  (exists m,
     In m (@re_finditer latin1_db (py "(\d{1,2})-(\d{1,2})-(\d{4})")
             (@lower latin1_db due_date_sample)) /\
     m_start m = 51 /\
     near_avoid_keyword (@lower latin1_db due_date_sample) m = false /\
     @candidate latin1_db (@lower latin1_db due_date_sample) (py "dmy") m =
       inr [py "20250110"]) /\
  @surviving_dates latin1_db (@lower latin1_db due_date_sample) =
    [py "20250201"; py "20250110"] /\
  @extract_invoice_date latin1_db due_date_sample = inr (Some (py "20250110")).
Proof.
  destruct (@earliest_non_due_date latin1_db due_date_sample)
    as [Hdrop [Hkeep [_ [_ Hmin]]]].
  assert (Hs : @surviving_dates latin1_db (@lower latin1_db due_date_sample) =
               [py "20250201"; py "20250110"]) by (vm_compute; reflexivity).
  split.
  { eexists. split; [vm_compute; left; reflexivity|].
    split; [reflexivity|]. split; [vm_compute; reflexivity|].
    match goal with
    | |- _ /\ candidate _ _ ?m = _ =>
        apply (Hdrop (py "(\d{1,2})/(\d{1,2})/(\d{4})", py "ambiguous") m
                 [] (py "vencimento ")
                 (py "01/01/2024 total com iva, taxa em vigor 10-01-2025 2025/02/01")
                 (py "vencimento") [] (py " "))
    end.
    - do 3 right. left. reflexivity.
    - vm_compute. left. reflexivity.
    - vm_compute. reflexivity.
    - reflexivity.
    - right. split; [reflexivity | vm_compute; lia].
    - left. reflexivity.
    - vm_compute. reflexivity. }
  split.
  { eexists. split; [vm_compute; left; reflexivity|].
    split; [reflexivity|].
    match goal with
    | |- _ /\ candidate _ _ ?m = _ =>
        destruct (Hkeep (py "(\d{1,2})-(\d{1,2})-(\d{4})", py "dmy") m
                    (py "v") (py "encimento 01/01/2024 total com iva, taxa em vigor ")
                    (py "10-01-2025 2025/02/01")) as [Ha Hc]
    end.
    - do 4 right. left. reflexivity.
    - vm_compute. left. reflexivity.
    - vm_compute. reflexivity.
    - reflexivity.
    - left. vm_compute. reflexivity.
    - intros kw a b Hkw Hab.
      assert (Hc : contains kw
                     (py "encimento 01/01/2024 total com iva, taxa em vigor ") = true)
        by (apply contains_spec; exists a, b; exact Hab).
      destruct Hkw as [<- | [<- | [<- | []]]]; vm_compute in Hc; discriminate Hc.
    - split; [exact Ha|]. cbn [snd] in Hc. rewrite Hc. vm_compute. reflexivity. }
  split; [exact Hs|].
  destruct Hmin as [d [He [Hin Hle]]].
  - vm_compute. reflexivity.
  - rewrite Hs. discriminate.
  - rewrite He. rewrite Hs in Hin, Hle.
    destruct Hin as [<- | [<- | []]].
    + specialize (Hle (py "20250110") (or_intror (or_introl eq_refl))).
      vm_compute in Hle. discriminate Hle.
    + reflexivity.
Defined.

(** C6. Validity of the extracted date.  Every string returned by
    [extract_invoice_date] is the eight zero-padded digits YYYYMMDD of a year
    in 2020..2030, a month in 1..12 and a day between 1 and the days of the
    month in the table with February at 29.  [extract_invoice_date] never
    raises; the validity gate answers [None], not an error, for three numbers
    that fail a check, such as a day past the end of its month; and so does
    [_normalize_date] for a month abbreviation that is not in its table. *)
Theorem extracted_date_is_valid {db : UnicodeDB} :
  (forall text, exists o, extract_invoice_date text = inr o) /\
  (forall text s,
     extract_invoice_date text = inr (Some s) ->
     (exists y m d,
         (2020 <= y <= 2030)%Z /\ (1 <= m <= 12)%Z /\
         (1 <= d <= spec_days_in_month m)%Z /\ s = yyyymmdd y m d) /\
     length s = 8 /\ forallb latin1_isdigit s = true) /\
  map spec_days_in_month [1; 2; 3; 4; 5; 6; 7; 8; 9; 10; 11; 12]%Z =
    [31; 29; 31; 30; 31; 30; 31; 31; 30; 31; 30; 31]%Z /\
  (forall y m d,
     validate y m d = inr (if valid_ymdb y m d then Some (yyyymmdd y m d) else None)) /\
  (forall y m d, (spec_days_in_month m < d)%Z -> validate y m d = inr None) /\
  (forall mt a b c,
     m_groups mt = [Some a; Some b; Some c] ->
     dict_get pt_month_map (lower b) = None ->
     _normalize_date mt (py "pt_month") = inr None) /\
  (forall mt date_format a b c,
     m_groups mt = [Some a; Some b; Some c] ->
     exists o, _normalize_date mt date_format = inr o /\
               forall s, o = Some s -> is_yyyymmdd s).
Proof.
  split; [exact extract_invoice_date_total|].
  split.
  { intros text s H. pose proof (extract_invoice_date_valid text s H) as Hv.
    split; [|exact (is_yyyymmdd_shape s Hv)].
    destruct Hv as [y [m [d [[Hy [Hm Hd]] ->]]]]. exists y, m, d. auto. }
  split; [reflexivity|].
  split; [exact validate_value|].
  split.
  { intros y m d H. rewrite validate_value.
    replace (valid_ymdb y m d) with false; [reflexivity|].
    symmetry. unfold valid_ymdb. apply andb_false_iff. right. apply Z.leb_gt. exact H. }
  split.
  { intros mt a b c Hg Hb. unfold _normalize_date, normalize_body. rewrite Hg.
    rewrite str_eqb_refl. cbn [getitem nth_error bind ret lower_].
    unfold int_. destruct (py_int a) as [day|]; [|reflexivity]. cbn [bind ret].
    destruct (py_int c) as [year|]; [|reflexivity]. cbn [bind ret].
    rewrite Hb. reflexivity. }
  intros mt date_format a b c Hg.
  destruct (normalize_date_total mt date_format a b c Hg) as [o Ho]. exists o.
  split; [exact Ho|]. intros s ->. exact (normalize_date_valid mt date_format s Ho).
Qed.

Lemma extracted_date_is_valid_witness :
  (exists y m d,
      (2020 <= y <= 2030)%Z /\ (1 <= m <= 12)%Z /\
      (1 <= d <= spec_days_in_month m)%Z /\ py "20250930" = yyyymmdd y m d) /\
  length (py "20250930") = 8 /\ forallb latin1_isdigit (py "20250930") = true.
Proof.
  apply (proj1 (proj2 (@extracted_date_is_valid latin1_db))
           (py "Data Emissão 30 - set - 2025 vencimento 31/02/2025")).
  vm_compute. reflexivity.
Defined.

(** C7. Keyword threshold and confidence.  [classify_by_keywords] returns a
    result exactly when the best entry of the registry (a positive score,
    every entry before it strictly less, every entry after it at most as
    much) has matched at least 30% of its keywords; the float test
    [0.3 <= score] of the code is that comparison of integers.  The result
    then names that entry, with the confidence [min(0.9, 0.5 + score * 0.4)],
    which is at most 0.9, and is 0.9 when every keyword of the entry has
    matched. *)
Theorem keyword_threshold_and_confidence {db : UnicodeDB} (text : str) :
  best_so_far text SUPPLIERS (keywords_best text) /\
  ((exists r, classify_by_keywords text = Some r) <->
   (exists nm p, best_supplier text nm p /\ 3 * total p <= 10 * hits text p)) /\
  (forall nm p,
     In (nm, p) SUPPLIERS -> 1 <= hits text p ->
     (0.3 <=? py_truediv (hits text p) (total p))%float = true <->
     3 * total p <= 10 * hits text p) /\
  (forall r,
     classify_by_keywords text = Some r ->
     exists nm p,
       best_supplier text nm p /\
       (0.3 <=? py_truediv (hits text p) (total p))%float = true /\
       supplier r = nm /\ method r = py "keywords" /\
       confidence r =
         py_min_float 0.9 (0.5 + py_truediv (hits text p) (total p) * 0.4)%float /\
       details r = [ (py "matched_keywords", VStrList (matched_keywords text p));
                     (py "score", VFloat (py_truediv (hits text p) (total p))) ] /\
       (confidence r <=? 0.9)%float = true) /\
  (forall nm p,
     In (nm, p) SUPPLIERS -> hits text p = total p ->
     py_min_float 0.9 (0.5 + py_truediv (hits text p) (total p) * 0.4)%float = 0.9%float).
Proof.
  assert (Hthr : forall nm p,
             In (nm, p) SUPPLIERS -> 1 <= hits text p ->
             (0.3 <=? py_truediv (hits text p) (total p))%float = true <->
             3 * total p <= 10 * hits text p).
  { intros nm p Hin Hh.
    pose proof registry_bounded as Hbd. rewrite Forall_forall in Hbd.
    specialize (Hbd _ Hin). unfold bounded_entry in Hbd. cbn [snd] in Hbd.
    pose proof (hits_le_total text p) as Hle.
    destruct (score_checks_all (hits text p) (total p) (hits text p) (total p))
      as [_ [_ [H3 _]]]; try lia.
    rewrite H3. apply Nat.leb_le. }
  assert (Hbest : forall nm p, best_supplier text nm p ->
                               In (nm, p) SUPPLIERS /\ 1 <= hits text p).
  { intros nm p [l1 [l2 [Hl [Hh _]]]]. split; [|exact Hh].
    rewrite Hl. apply in_or_app. right. left. reflexivity. }
  split; [exact (keywords_best_inv text)|].
  split.
  { pose proof (classify_by_keywords_value text) as Hv.
    destruct (classify_by_keywords text) as [r|].
    - destruct Hv as [nm [p [Hb [Ht _]]]].
      split; [intros _; exists nm, p; split; assumption | intros _; exists r; reflexivity].
    - split; [intros [r Hr]; discriminate|].
      intros [nm [p [Hb Ht]]]. destruct (Hbest nm p Hb) as [Hin _].
      specialize (Hv nm p Hin). lia. }
  split; [exact Hthr|].
  split.
  { intros r Hr. pose proof (classify_by_keywords_value text) as Hv. rewrite Hr in Hv.
    destruct Hv as [nm [p [Hb [Ht ->]]]]. exists nm, p.
    destruct (Hbest nm p Hb) as [Hin Hh].
    split; [exact Hb|]. split; [apply (Hthr nm p Hin Hh); exact Ht|].
    repeat (split; [reflexivity|]).
    exact (proj1 (keywords_result_confidence text nm p Hin Hh)). }
  intros nm p Hin Hall. rewrite Hall.
  pose proof registry_bounded as Hbd. rewrite Forall_forall in Hbd.
  specialize (Hbd _ Hin). unfold bounded_entry in Hbd. cbn [snd] in Hbd.
  destruct Hbd as [H1 H5].
  destruct (total p) as [|[|[|[|[|[|n]]]]]]; try lia; reflexivity.
Qed.

Lemma keyword_threshold_and_confidence_witness :
  exists nm p,
    @best_supplier latin1_db (py "novadis alfarrobeira") nm p /\
    nm = py "novadis" /\
    py_min_float 0.9
      (0.5 + py_truediv (@hits latin1_db (py "novadis alfarrobeira") p) (total p) * 0.4)%float
      = 0.7%float.
Proof.
  assert (Hr : @classify_by_keywords latin1_db (py "novadis alfarrobeira") =
               Some (mk_result (py "novadis") 0.7%float (py "keywords")
                       [ (py "matched_keywords", VStrList [py "novadis"; py "alfarrobeira"]);
                         (py "score", VFloat 0.5) ]))
    by (vm_compute; reflexivity).
  destruct (proj1 (proj2 (proj2 (proj2
              (@keyword_threshold_and_confidence latin1_db (py "novadis alfarrobeira")))))
              _ Hr) as [nm [p [Hb [_ [Hs [_ [Hc _]]]]]]].
  exists nm, p. split; [exact Hb|]. split; [symmetry; exact Hs | symmetry; exact Hc].
Defined.

(** C8. End to end.  A document whose OCR text is exactly
    "novadis alfarrobeira data de emissão: 10/02/2025", with no template
    loaded: no surface form of a registered tax ID occurs in the text, so
    there is no tax-ID match; [classify] returns [novadis] by [keywords]
    (two of its four keywords match), and the invoice date is 20250210: the
    ambiguous 10/02/2025 is read day first. *)
Theorem novadis_scenario
    {db : UnicodeDB} {Path Image : Type} {cap : Capabilities Path Image}
    (path : Path) (image : Image) :
  pdf_to_image path = inr image ->
  extract_text_ocr image = inr (py "novadis alfarrobeira data de emissão: 10/02/2025") ->
  no_tax_id_form (py "novadis alfarrobeira data de emissão: 10/02/2025") = true /\
  classify_by_nif (py "novadis alfarrobeira data de emissão: 10/02/2025") = None /\
  extract_invoice_date (py "novadis alfarrobeira data de emissão: 10/02/2025") =
    inr (Some (py "20250210")) /\
  classify [] path =
    inr {| supplier := py "novadis";
           confidence := 0.7%float;
           method := py "keywords";
           details := [(py "matched_keywords", VStrList [py "novadis"; py "alfarrobeira"]);
                       (py "score", VFloat 0.5)];
           invoice_date := Some (py "20250210");
           ocr_text := py "novadis alfarrobeira data de emissão: 10/02/2025" |}.
Proof.
  intros Hraster Htext.
  split; [vm_compute; reflexivity|].
  split; [vm_compute; reflexivity|].
  split; [vm_compute; reflexivity|].
  unfold classify. rewrite Hraster, Htext.
  vm_compute. reflexivity.
Qed.

Lemma novadis_scenario_witness :
  @classify latin1_db unit unit
    (fixed_capabilities (py "Novadis Alfarrobeira Data de Emissão: 10/02/2025") []
       (fun _ => None)) [] tt =
  inr {| supplier := py "novadis";
         confidence := 0.7%float;
         method := py "keywords";
         details := [(py "matched_keywords", VStrList [py "novadis"; py "alfarrobeira"]);
                     (py "score", VFloat 0.5)];
         invoice_date := Some (py "20250210");
         ocr_text := py "novadis alfarrobeira data de emissão: 10/02/2025" |}.
Proof.
  apply (@novadis_scenario latin1_db unit unit
           (fixed_capabilities (py "Novadis Alfarrobeira Data de Emissão: 10/02/2025") []
              (fun _ => None)) tt tt); vm_compute; reflexivity.
Defined.

(** C9 does not hold as stated: [classify] catches only the exception of the
    rasterizer, so it can raise to the caller.  For a page on which tesseract
    reads "Recibo" the tax-ID, template and keyword matches all find nothing
    and the page gives no date, so the header region is read; when that OCR
    call raises, the exception leaves [classify] and no [unknown]/[none]
    result is returned. *)
Lemma header_ocr_failure_escapes :
  @extract_text_ocr latin1_db unit unit (header_failing_capabilities (py "Recibo")) tt =
    inr (py "recibo") /\
  @extract_invoice_date latin1_db (py "recibo") = inr None /\
  @classify_by_nif latin1_db (py "recibo") = None /\
  @classify_by_template unit unit (header_failing_capabilities (py "Recibo")) [] tt =
    inr None /\
  @classify_by_keywords latin1_db (py "recibo") = None /\
  @classify latin1_db unit unit (header_failing_capabilities (py "Recibo")) [] tt =
    inl LibraryError.
Proof.
  split; [vm_compute; reflexivity|].
  split; [vm_compute; reflexivity|].
  split; [vm_compute; reflexivity|].
  split; [reflexivity|].
  split; vm_compute; reflexivity.
Qed.

(** C9, amended.  When page 1 cannot be rasterized [classify] returns
    [unknown] with confidence 0.0, method [error] and the failure message
    under [details['error']], and no other path gives the method [error].
    When the OCR of the page and the extraction of the date return and the
    tax-ID, template and keyword matches all find nothing, it returns
    [unknown] with method [none], confidence 0.0 and the first 500 characters
    of the OCR text under [details['text_sample']].  After rasterization
    nothing is caught: an exception of the OCR of the page, or of the OCR of
    the header region when the page gives no date, leaves [classify].
    [classify] raises nothing of its own: an exception leaves it only when a
    call of the OCR engine or the computation of a similarity raised it outside
    the handlers, and it returns a result whenever these calls return. *)
Theorem error_and_unknown_results
    {db : UnicodeDB} {Path Image : Type} {cap : Capabilities Path Image}
    (templates : list str) (path : Path) :
  (forall msg, pdf_to_image path = inl msg ->
     classify templates path =
       inr (mk_result (py "unknown") 0%float (py "error") [(py "error", VStr msg)])) /\
  (forall r, classify templates path = inr r -> method r = py "error" ->
     exists msg, pdf_to_image path = inl msg) /\
  (forall image text date,
     pdf_to_image path = inr image ->
     extract_text_ocr image = inr text ->
     document_date image text = inr date ->
     classify_by_nif text = None ->
     classify_by_template templates image = inr None ->
     classify_by_keywords text = None ->
     classify templates path =
       inr {| supplier := py "unknown"; confidence := 0%float; method := py "none";
              details := [(py "text_sample", VStr (firstn 500 text))];
              invoice_date := date;
              ocr_text := text |}) /\
  (forall image e,
     pdf_to_image path = inr image ->
     ocr_page image = inl e ->
     classify templates path = inl e) /\
  (forall image raw e,
     pdf_to_image path = inr image ->
     ocr_page image = inr raw ->
     extract_invoice_date (lower raw) = inr None ->
     ocr_header image = inl e ->
     classify templates path = inl e) /\
  (forall e, classify templates path = inl e ->
     exists image,
       pdf_to_image path = inr image /\
       (ocr_page image = inl e \/ ocr_header image = inl e \/
        exists nm, In nm templates /\ header_ssim image nm = inl e)) /\
  ((forall image, pdf_to_image path = inr image ->
      (exists raw, ocr_page image = inr raw) /\
      (exists raw, ocr_header image = inr raw) /\
      (forall nm, In nm templates -> exists s, header_ssim image nm = inr s)) ->
   exists r, classify templates path = inr r).
Proof.
  split; [|split; [|split; [|split; [|split; [|split]]]]].
  - intros msg Hraster. unfold classify. now rewrite Hraster.
  - intros r Hc Hm. destruct (pdf_to_image path) as [msg | image] eqn:Hraster; [eauto|].
    exfalso. unfold classify in Hc. rewrite Hraster in Hc.
    destruct (extract_text_ocr image) as [e | text]; cbn [bind] in Hc; [discriminate|].
    destruct (document_date image text) as [e | date]; cbn [bind] in Hc; [discriminate|].
    exact (classify_text_method templates image text date r Hc Hm).
  - intros image text date Hraster Htext Hdate Hnif Ht Hk.
    rewrite (classify_value templates path image text date Hraster Htext Hdate).
    now rewrite (classify_text_no_nif templates image _ date Hnif), Ht, Hk.
  - intros image e Hraster Hpage. unfold classify, extract_text_ocr.
    rewrite Hraster, Hpage. reflexivity.
  - intros image raw e Hraster Hpage Hdate Hheader.
    unfold classify, extract_text_ocr, document_date, extract_header_text.
    rewrite Hraster, Hpage. cbn [bind ret]. rewrite Hdate. cbn [bind ret truthy].
    rewrite Hheader. reflexivity.
  - exact (classify_blame templates path).
  - intro Hret. destruct (classify templates path) as [e | r] eqn:Hc; [|eauto].
    exfalso. destruct (classify_blame templates path e Hc) as [image [Hraster Hb]].
    destruct (Hret image Hraster) as [[raw Hp] [[raw' Hh] Hs]].
    destruct Hb as [Hb | [Hb | [nm [Hin Hb]]]]; [congruence | congruence |].
    destruct (Hs nm Hin) as [s Hs']. congruence.
Qed.

Lemma error_and_unknown_results_witness :
  @classify latin1_db unit unit (failing_capabilities (py "Unable to get page count."))
    [] tt =
    inr (mk_result (py "unknown") 0%float (py "error")
           [(py "error", VStr (py "Unable to get page count."))]) /\
  @classify latin1_db unit unit
    (fixed_capabilities (py "Recibo") (py "Obrigado") (fun _ => Some 0.1%float))
    [py "novadis"] tt =
    inr {| supplier := py "unknown"; confidence := 0%float; method := py "none";
           details := [(py "text_sample", VStr (py "recibo"))];
           invoice_date := None;
           ocr_text := py "recibo" |} /\
  exists r,
    @classify latin1_db unit unit
      (fixed_capabilities (py "Recibo") (py "Obrigado") (fun _ => Some 0.1%float))
      [py "novadis"] tt = inr r.
Proof.
  split; [|split].
  - apply (proj1 (@error_and_unknown_results latin1_db unit unit
                    (failing_capabilities (py "Unable to get page count.")) [] tt)).
    reflexivity.
  - apply (proj1 (proj2 (proj2
             (@error_and_unknown_results latin1_db unit unit
                (fixed_capabilities (py "Recibo") (py "Obrigado") (fun _ => Some 0.1%float))
                [py "novadis"] tt))) tt (py "recibo") None).
    + reflexivity.
    + vm_compute. reflexivity.
    + vm_compute. reflexivity.
    + vm_compute. reflexivity.
    + vm_compute. reflexivity.
    + vm_compute. reflexivity.
  - apply (proj2 (proj2 (proj2 (proj2 (proj2 (proj2
             (@error_and_unknown_results latin1_db unit unit
                (fixed_capabilities (py "Recibo") (py "Obrigado") (fun _ => Some 0.1%float))
                [py "novadis"] tt))))))).
    intros [] _. split; [eexists; reflexivity|]. split; [eexists; reflexivity|].
    intros nm _. eexists. reflexivity.
Defined.

(** C10. The placeholder tax ID.  The all-zero tax ID is searched for like
    any other (only a tax ID that is empty or shorter than nine characters is
    skipped): a text that contains "000000000" and no surface form of
    another registered tax ID is classified as [padoca], the first entry of
    the registry with this tax ID, ahead of [kiabi], with method [nif] and
    confidence 0.95. *)
Theorem placeholder_tax_id_matches {db : UnicodeDB} (text : str) :
  contains (py "000000000") text = true ->
  (forall nm p form,
      In (nm, p) SUPPLIERS -> nif p <> py "000000000" -> 9 <= length (nif p) ->
      In form (nif_patterns (nif p)) -> contains form text = false) ->
  classify_by_nif text =
    Some (mk_result (py "padoca") 0.95%float (py "nif")
            [(py "matched_nif", VStr (py "000000000"))]) /\
  exists l1 p l2 q l3,
    SUPPLIERS = l1 ++ (py "padoca", p) :: l2 ++ (py "kiabi", q) :: l3 /\
    nif p = py "000000000" /\ nif q = py "000000000" /\
    forall e, In e l1 -> nif (snd e) <> py "000000000".
Proof.
  intros Hz Hother. split.
  - exact (classify_by_nif_placeholder text Hz Hother).
  - exists before_padoca. eexists _.
    exists (entries_before (py "kiabi") (entries_after (py "padoca") SUPPLIERS)).
    eexists _. exists (entries_after (py "kiabi") SUPPLIERS).
    split; [reflexivity|].
    split; [reflexivity|]. split; [reflexivity|].
    intros e He. pose proof before_padoca_nifs as Hb. rewrite forallb_forall in Hb.
    specialize (Hb _ He). now apply negb_true_iff, str_eqb_neq in Hb.
Qed.

Lemma placeholder_tax_id_matches_witness :
  @classify_by_nif latin1_db (py "talao nif: 000000000 obrigado") =
    Some (mk_result (py "padoca") 0.95%float (py "nif")
            [(py "matched_nif", VStr (py "000000000"))]).
Proof.
  apply (@placeholder_tax_id_matches latin1_db (py "talao nif: 000000000 obrigado")).
  - reflexivity.
  - apply no_other_tax_id_form_spec. vm_compute. reflexivity.
Defined.
